(** * A model of [sync_images.py] (hfxbikeparking)

    The script keeps a SQLite table [file_state] keyed by the absolute path
    of each uploaded photo, and on every run it
    - removes the rows whose file is gone ([cleanup_deleted_files]),
    - enumerates the photos of the directory ([get_image_files]),
    - classifies each of them ([needs_upload]) and uploads the new or
      modified ones ([upload_to_s3]), counting uploads, skips and failures
      ([sync_images]),
    - and turns the counts into an exit status ([main]).

    The outside world is an environment record: the directory listing as
    [iterdir] returns it, the file system as a map from path to node, and
    two oracles saying which S3 transfers and which SQLite operations
    succeed.  The MD5 function itself is a parameter [md5] of the
    development: [hashlib.md5] is only used through [update] and
    [hexdigest], and [hexdigest] is the MD5 of all bytes fed so far. *)

From Stdlib Require Import String Ascii ZArith QArith List Permutation Sorted.
From stdpp Require Import base gmap strings list sorting.

Module Sync.

(** ** Data *)

(** Exceptions that the code can meet. *)
Inductive exn := OSError | SqliteError | S3Error.

Inductive result (A : Type) := Ok (a : A) | Err (e : exn).
Arguments Ok {A} _.
Arguments Err {A} _.

(** What [os.stat] and [open(.., "rb").read()] see of a path.
    [n_data] is [None] when the file cannot be read. [st_mtime] is a
    float; only its equality is used, so it is kept as an integer code. *)
Record node := mk_node {
  n_is_file : bool;
  n_size : Z;
  n_mtime : Z;
  n_data : option (list Byte.byte)
}.

(** SQLite operations that may fail.  An [INSERT OR REPLACE] followed by
    its [commit] is one operation [DbInsert]: it either takes effect or
    leaves the table as it was. *)
Inductive db_op :=
  | DbSelect (p : string)
  | DbInsert (p : string)
  | DbSelectAll
  | DbDelete (p : string)
  | DbCommit.

Record env := mk_env {
  photos_dir : string;                 (* Path(photos_dir).resolve() *)
  dir_listing : list string;           (* names, in iterdir() order *)
  fs : string -> option node;          (* absolute path -> node *)
  s3_upload_ok : string -> bool;       (* does s3_client.upload_file succeed *)
  db_ok : db_op -> bool                (* does the SQLite operation succeed *)
}.

(** A row of [file_state] ([uploaded_at] is not read by the code and
    left out). *)
Record file_state := mk_row {
  file_hash : string;
  file_size : Z;
  last_modified : Z;
  s3_key : string
}.

(** The table, keyed by [filepath] (its PRIMARY KEY). *)
Abbreviation store := (gmap string file_state).

(** [str(self.photos_dir / name)] *)
Definition join (d n : string) : string := String.append d (String.append "/" n).

(** ** [get_file_hash] *)

Section Syncer.

Variable md5 : list Byte.byte -> string.

(** [hashlib.md5()] object: [update(a); update(b)] is [update(a+b)]. *)
Record md5_obj := mk_md5 { md5_buf : list Byte.byte }.
Definition md5_new : md5_obj := mk_md5 [].
Definition md5_update (h : md5_obj) (chunk : list Byte.byte) : md5_obj :=
  mk_md5 (md5_buf h ++ chunk).
Definition md5_hexdigest (h : md5_obj) : string := md5 (md5_buf h).

Definition CHUNK_SIZE : nat := 4096.

(** [for chunk in iter(lambda: f.read(4096), b""): hash_md5.update(chunk)];
    [rest] is what is left in the file, [fuel] bounds the iterations. *)
Fixpoint read_loop (fuel : nat) (h : md5_obj) (rest : list Byte.byte) : md5_obj :=
  match fuel with
  | O => h
  | S fuel' =>
      match rest with
      | [] => h
      | _ :: _ => read_loop fuel' (md5_update h (take CHUNK_SIZE rest))
                            (drop CHUNK_SIZE rest)
      end
  end.

Definition get_file_hash (e : env) (p : string) : result string :=
  match fs e p with
  | None => Err OSError
  | Some n =>
      match n_data n with
      | None => Err OSError
      | Some d => Ok (md5_hexdigest (read_loop (S (length d)) md5_new d))
      end
  end.

(** ** [get_image_files] *)

(** [str.lower] on the ASCII range. *)
Definition ascii_lower (c : ascii) : ascii :=
  let k := nat_of_ascii c in
  if (65 <=? k)%nat && (k <=? 90)%nat then ascii_of_nat (k + 32) else c.

Fixpoint str_lower (s : string) : string :=
  match s with
  | EmptyString => EmptyString
  | String c s' => String (ascii_lower c) (str_lower s')
  end.

(** [str.rfind(c)], [None] standing for [-1]. *)
Fixpoint rfind_from (c : ascii) (s : string) (i : nat) (acc : option nat)
    : option nat :=
  match s with
  | EmptyString => acc
  | String c' s' =>
      rfind_from c s' (S i) (if Ascii.eqb c c' then Some i else acc)
  end.

Definition rfind (c : ascii) (s : string) : option nat := rfind_from c s 0 None.

(** [PurePath.suffix]:
    [i = name.rfind('.'); if 0 < i < len(name) - 1: return name[i:]
     else: return ''] *)
Definition path_suffix (name : string) : string :=
  match rfind "." name with
  | Some i =>
      if (0 <? i)%nat && (i <? String.length name - 1)%nat
      then substring i (String.length name - i) name
      else EmptyString
  | None => EmptyString
  end.

Definition IMAGE_EXTENSIONS : list string := [".jpg"; ".jpeg"; ".JPG"; ".JPEG"]%string.

Definition in_image_extensions (s : string) : bool :=
  existsb (String.eqb s) IMAGE_EXTENSIONS.

(** [Path.is_file()] (false when the path does not exist). *)
Definition is_file (e : env) (p : string) : bool :=
  match fs e p with
  | Some n => n_is_file n
  | None => false
  end.

(** [Path.exists()] *)
Definition path_exists (e : env) (p : string) : bool :=
  match fs e p with
  | Some _ => true
  | None => false
  end.

Definition is_image (e : env) (name : string) : bool :=
  is_file e (join (photos_dir e) name)
  && in_image_extensions (str_lower (path_suffix name)).

(** [sorted(image_files)]: all the paths share [photos_dir], so Python's
    order on them is the order of their names, i.e. code point order of
    strings.  A candidate is represented by its name. *)
Definition get_image_files (e : env) : list string :=
  merge_sort String.le (List.filter (is_image e) (dir_listing e)).

(** ** [needs_upload] *)

(** The three cases the code distinguishes: no row ([return True, ..] of
    the [if not result] branch), a row that differs ([return True, ..]
    of the change test), a row that agrees ([return False, ..]). *)
Inductive cls := New | Modified | Unchanged.

Definition needs_upload (e : env) (st : store) (name : string)
    : result (cls * string) :=
  let p := join (photos_dir e) name in
  match fs e p with
  | None => Err OSError                                  (* filepath.stat() *)
  | Some n =>
      match get_file_hash e p with                         (* always hashed *)
      | Err x => Err x
      | Ok current_hash =>
          if negb (db_ok e (DbSelect p)) then Err SqliteError else
          match st !! p with
          | None => Ok (New, current_hash)
          | Some r =>
              if negb (String.eqb current_hash (file_hash r))
                 || negb (Z.eqb (n_size n) (file_size r))
                 || negb (Z.eqb (n_mtime n) (last_modified r))
              then Ok (Modified, current_hash)
              else Ok (Unchanged, current_hash)
          end
      end
  end.

(** The boolean the Python function returns. *)
Definition needs_upload_flag (c : cls) : bool :=
  match c with Unchanged => false | _ => true end.

(** ** [upload_to_s3] *)

(** Every exception inside the [try] ([upload_file], [stat], the
    [INSERT OR REPLACE] and its [commit]) is caught and gives [False]. *)
Definition upload_to_s3 (e : env) (st : store) (name : string)
    (h : string) : bool * store :=
  let p := join (photos_dir e) name in
  let key := name in
  if negb (s3_upload_ok e p) then (false, st) else
  match fs e p with
  | None => (false, st)
  | Some n =>
      if db_ok e (DbInsert p)
      then (true, <[p := mk_row h (n_size n) (n_mtime n) key]> st)
      else (false, st)
  end.

(** ** [sync_images] *)

Inductive outcome := Uploaded | Skipped | Failed.

(** Observable effects, in order: rows deleted, transfers attempted, and
    the result logged for each candidate. *)
Inductive event :=
  | EvDelete (p : string)
  | EvUpload (p : string)
  | EvResult (name : string) (o : outcome).

Record sync_state := mk_ss {
  uploaded_count : nat;
  skipped_count : nat;
  failed_count : nat;
  db : store;
  trace : list event
}.

Definition record (s : sync_state) (o : outcome) (st : store)
    (evs : list event) : sync_state :=
  match o with
  | Uploaded => mk_ss (S (uploaded_count s)) (skipped_count s) (failed_count s) st (trace s ++ evs)
  | Skipped => mk_ss (uploaded_count s) (S (skipped_count s)) (failed_count s) st (trace s ++ evs)
  | Failed => mk_ss (uploaded_count s) (skipped_count s) (S (failed_count s)) st (trace s ++ evs)
  end.

(** One iteration of [for filepath in image_files: try: ...
    except Exception: failed_count += 1]. *)
Definition sync_step (e : env) (s : sync_state) (name : string) : sync_state :=
  let p := join (photos_dir e) name in
  match needs_upload e (db s) name with
  | Err _ => record s Failed (db s) [EvResult name Failed]
  | Ok (c, h) =>
      if needs_upload_flag c then
        let '(ok, st') := upload_to_s3 e (db s) name h in
        if ok then record s Uploaded st' [EvUpload p; EvResult name Uploaded]
        else record s Failed st' [EvUpload p; EvResult name Failed]
      else record s Skipped (db s) [EvResult name Skipped]
  end.

Definition sync_from (e : env) (s : sync_state) (names : list string) : sync_state :=
  fold_left (sync_step e) names s.

Definition sync_images (e : env) (st : store) : sync_state :=
  sync_from e (mk_ss 0 0 0 st []) (get_image_files e).

(** ** [cleanup_deleted_files] *)

Fixpoint cleanup_loop (e : env) (st : store) (removed : nat)
    (tr : list event) (db_files : list string)
    : result (store * nat * list event) :=
  match db_files with
  | [] => Ok (st, removed, tr)
  | p :: rest =>
      if path_exists e p then cleanup_loop e st removed tr rest
      else if db_ok e (DbDelete p)
      then cleanup_loop e (delete p st) (S removed) (tr ++ [EvDelete p]) rest
      else Err SqliteError
  end.

(** The SQLite errors are not caught here: they reach [main]. *)
Definition cleanup_deleted_files (e : env) (st : store)
    : result (store * list event) :=
  if negb (db_ok e DbSelectAll) then Err SqliteError else
  match cleanup_loop e st 0 [] (map fst (map_to_list st)) with
  | Err x => Err x
  | Ok (st', removed, tr) =>
      if (0 <? removed)%nat && negb (db_ok e DbCommit)
      then Err SqliteError
      else Ok (st', tr)
  end.

(** ** [main] *)

(** The body of the [try] of [main]: reconciliation, then the sync.  The
    result carries the reconciliation's events and the sync's state. *)
Definition run_pass (e : env) (st : store)
    : result (list event * sync_state) :=
  match cleanup_deleted_files e st with
  | Err x => Err x
  | Ok (st1, tr1) => Ok (tr1, sync_images e st1)
  end.

(** How [ImageSyncer("photos")] ends; it runs before the [try]. *)
Inductive setup_outcome :=
  | SetupOk
  | SetupError        (* e.g. NoCredentialsError, ClientError: re-raised *)
  | SetupInterrupted. (* KeyboardInterrupt while connecting *)

(** [exit(n)], or the end of a CPython process killed by an uncaught
    [KeyboardInterrupt] (since Python 3.8 it re-raises SIGINT on itself). *)
Inductive exit_status := ExitCode (n : Z) | KilledBySigint.

(** [interrupted] says whether a [KeyboardInterrupt] arrives inside the
    [try] of [main].  An uncaught [Exception] ends CPython with status 1. *)
Definition main (setup : setup_outcome) (interrupted : bool) (e : env)
    (st : store) : exit_status :=
  match setup with
  | SetupError => ExitCode 1
  | SetupInterrupted => KilledBySigint
  | SetupOk =>
      if interrupted then ExitCode 1 else
      match run_pass e st with
      | Err _ => ExitCode 1
      | Ok (_, s) => if (0 <? failed_count s)%nat then ExitCode 1 else ExitCode 0
      end
  end.

End Syncer.

(** ** [get_content_type] and the arguments of [upload_file] *)

Definition BUCKET_NAME : string := "hfxbikeparking".

(** The [content_types] dict of [get_content_type]. *)
Definition content_types : list (string * string) :=
  [(".jpg", "image/jpeg"); (".jpeg", "image/jpeg"); (".png", "image/png");
   (".gif", "image/gif"); (".webp", "image/webp")]%string.

(** [dict.get(key)] on a dict without duplicate keys. *)
Fixpoint dict_get {V : Type} (k : string) (d : list (string * V)) : option V :=
  match d with
  | [] => None
  | (k', v) :: d' => if String.eqb k k' then Some v else dict_get k d'
  end.

(** [content_types.get(extension.lower(), 'application/octet-stream')] *)
Definition get_content_type (extension : string) : string :=
  match dict_get (str_lower extension) content_types with
  | Some t => t
  | None => "application/octet-stream"
  end.

(** The call [s3_client.upload_file(str(filepath), BUCKET_NAME, s3_key,
    ExtraArgs=...)] of [upload_to_s3]; the [upload-date] metadata (the
    clock) is left out. *)
Record upload_call := mk_upload_call {
  up_filename : string;
  up_bucket : string;
  up_key : string;
  up_content_type : string;
  up_original_name : string
}.

Definition upload_args (e : env) (name : string) : upload_call :=
  mk_upload_call (join (photos_dir e) name) BUCKET_NAME name
    (get_content_type (str_lower (path_suffix name))) name.

(** The row at [q] holds the hash, size and mtime of the readable file now
    at [q]. *)
Definition row_matches (md5 : list Byte.byte -> string) (st : store) (e : env)
    (q : string) : Prop :=
  exists r n d, st !! q = Some r /\ fs e q = Some n /\ n_data n = Some d /\
    file_hash r = md5 d /\ file_size r = n_size n /\ last_modified r = n_mtime n.

End Sync.

(** * Concrete scenarios

    A small photo directory used to run the model.  [demo_digest] stands
    for MD5 (it is injective, which is all the runs below rely on). *)

Module Scenarios.
Import Sync.

Definition demo_digest (l : list Byte.byte) : string := string_of_list_byte l.

Definition photo_a : node := mk_node true 2 100 (Some [Byte.x61; Byte.x61]).
Definition photo_b : node := mk_node true 3 200 (Some [Byte.x62; Byte.x62; Byte.x62]).
Definition photo_c : node := mk_node true 2 300 (Some [Byte.x63; Byte.x63]).
(** Same bytes as [photo_a], other name and metadata. *)
Definition photo_a_copy : node := mk_node true 2 999 (Some [Byte.x61; Byte.x61]).
Definition photo_locked : node := mk_node true 4 400 None.

Definition dir_fs (p : string) : option node :=
  if String.eqb p "/photos/a.jpg" then Some photo_a
  else if String.eqb p "/photos/b.JPEG" then Some photo_b
  else if String.eqb p "/photos/copy.jpg" then Some photo_a_copy
  else if String.eqb p "/photos/locked.jpg" then Some photo_locked
  else None.

(** The same directory after [c.jpg] came back. *)
Definition dir_fs_back (p : string) : option node :=
  if String.eqb p "/photos/c.jpg" then Some photo_c else dir_fs p.

Definition listing : list string :=
  ["b.JPEG"; "notes.txt"; "a.jpg"; ".jpg"]%string.

Definition env_ok : env := mk_env "/photos" listing dir_fs (fun _ => true) (fun _ => true).

Definition env_back : env :=
  mk_env "/photos" ("c.jpg" :: listing)%string dir_fs_back (fun _ => true) (fun _ => true).

Definition env_s3_down : env :=
  mk_env "/photos" listing dir_fs (fun _ => false) (fun _ => true).

Definition env_insert_fails : env :=
  mk_env "/photos" listing dir_fs (fun _ => true)
    (fun op => match op with DbInsert _ => false | _ => true end).

Definition env_locked : env :=
  mk_env "/photos" ("locked.jpg" :: listing)%string dir_fs (fun _ => true) (fun _ => true).

(** A row for [a.jpg] with the right size and mtime but another hash. *)
Definition store_stale : store :=
  <["/photos/a.jpg"%string := mk_row "zz" 2 100 "a.jpg"]> ∅.

(** A row for [c.jpg], which is not in the directory. *)
Definition store_gone : store :=
  <["/photos/c.jpg"%string := mk_row "cc" 2 300 "c.jpg"]> ∅.

Definition pass_state (r : result (list event * sync_state)) : sync_state :=
  match r with Ok (_, s) => s | Err _ => mk_ss 0 0 0 ∅ [] end.

End Scenarios.

(** * A model of [dogsheep/fetch.py]

    The script reads the rows of the [apple_photos] table of one album and
    prints them as a GeoJSON feature collection.  Python values are the
    inductive [pyval]; a float is kept as the rational number it denotes.
    [ast.literal_eval] (on the [keywords] column) and [int] (on a string)
    are parameters: the code only uses their results or their failure.
    The printed text is [json.dumps] of a value; the value itself is what
    the model prints. *)

Module Fetch.

(** Exceptions that the code can meet. *)
Inductive exn :=
  | LiteralError      (* ast.literal_eval raises ValueError or SyntaxError *)
  | AttributeError    (* original_filename is not a string *)
  | IndexError        (* kw.split(":")[1] with no ":" in kw *)
  | ValueError        (* int(..) of a string that is no integer *)
  | SqliteErr.        (* sqlite3.Error *)

Inductive result (A : Type) := Ok (a : A) | Err (e : exn).
Arguments Ok {A} _.
Arguments Err {A} _.

#[warnings="-register-all"]
Inductive pyval :=
  | PyNone
  | PyBool (b : bool)
  | PyInt (z : Z)
  | PyFloat (q : Q)
  | PyStr (s : string)
  | PyList (l : list pyval)
  | PyDict (kvs : list (string * pyval)).

(** [bool(v)] *)
Definition py_truth (v : pyval) : bool :=
  match v with
  | PyNone => false
  | PyBool b => b
  | PyInt z => negb (Z.eqb z 0)
  | PyFloat q => negb (Qeq_bool q 0)
  | PyStr s => negb (String.eqb s "")
  | PyList l => match l with [] => false | _ => true end
  | PyDict kvs => match kvs with [] => false | _ => true end
  end.

(** [d[k] = v]: a key already present keeps its place, a new key goes
    last. *)
Fixpoint dict_set {V : Type} (k : string) (v : V) (d : list (string * V))
    : list (string * V) :=
  match d with
  | [] => [(k, v)]
  | (k', v') :: d' => if String.eqb k k' then (k', v) :: d' else (k', v') :: dict_set k v d'
  end.

(** [s.split(sep)] for a one-character separator. *)
Fixpoint str_split (sep : ascii) (s : string) : list string :=
  match s with
  | EmptyString => [EmptyString]
  | String c s' =>
      let rest := str_split sep s' in
      if Ascii.eqb c sep then EmptyString :: rest
      else match rest with
           | r :: rs => String c r :: rs
           | [] => [String c EmptyString]
           end
  end.

(** [str.title] on the ASCII range: a letter is upper-cased after a
    character that is no letter (or at the start) and lower-cased after a
    letter. *)
Definition is_ascii_alpha (c : ascii) : bool :=
  let k := nat_of_ascii c in
  ((65 <=? k)%nat && (k <=? 90)%nat) || ((97 <=? k)%nat && (k <=? 122)%nat).

Definition ascii_upper (c : ascii) : ascii :=
  let k := nat_of_ascii c in
  if (97 <=? k)%nat && (k <=? 122)%nat then ascii_of_nat (k - 32) else c.

Fixpoint title_from (prev_cased : bool) (s : string) : string :=
  match s with
  | EmptyString => EmptyString
  | String c s' =>
      if is_ascii_alpha c
      then String (if prev_cased then Sync.ascii_lower c else ascii_upper c)
                  (title_from true s')
      else String c (title_from false s')
  end.

Definition str_title (s : string) : string := title_from false s.

(** The fields of [RowData] that [create_feature] reads; the other 42
    columns of the namedtuple are not used by the code. *)
Record RowData := mk_RowData {
  original_filename : pyval;
  description : pyval;
  date : pyval;
  keywords : pyval;
  latitude : pyval;
  longitude : pyval
}.

Section Fetcher.

(** [ast.literal_eval(s)]: the keywords the [for] loops iterate over,
    [None] when it raises. *)
Variable literal_eval : string -> option (list string).
(** [int(s)]: [None] when it raises [ValueError]. *)
Variable py_int : string -> option Z.

(** [x = True; for kw in keywords: if kw.startswith("type:"): x = False] *)
Definition x_flag (kws : list string) : bool :=
  fold_left (fun x kw => if String.prefix "type:" kw then false else x) kws true.

(** One iteration of the second [for kw in keywords] loop. *)
Definition properties_step (properties : list (string * pyval)) (kw : string)
    : result (list (string * pyval)) :=
  match (if String.prefix "size" kw then
           match nth_error (str_split ":" kw) 1 with
           | None => Err IndexError
           | Some f =>
               match py_int f with
               | None => Err ValueError
               | Some n => Ok (dict_set "Size" (PyInt n) properties)
               end
           end
         else Ok properties) with
  | Err x => Err x
  | Ok properties =>
      if String.prefix "type" kw then
        match nth_error (str_split ":" kw) 1 with
        | None => Err IndexError
        | Some p => Ok (dict_set "Type" (PyStr (str_title p)) properties)
        end
      else Ok properties
  end.

Fixpoint properties_loop (properties : list (string * pyval)) (kws : list string)
    : result (list (string * pyval)) :=
  match kws with
  | [] => Ok properties
  | kw :: rest =>
      match properties_step properties kw with
      | Err x => Err x
      | Ok properties' => properties_loop properties' rest
      end
  end.

(** [create_feature(row)]: [Ok None] for [return None]. *)
Definition create_feature (row : RowData) : result (option pyval) :=
  match (match keywords row with PyStr s => literal_eval s | _ => None end) with
  | None => Err LiteralError
  | Some kws =>
      if x_flag kws then Ok None else
      match original_filename row with
      | PyStr o =>
          match str_split "." o with
          | [] => Err IndexError
          | base :: _ =>
              let filename := String.append base ".jpeg" in
              let properties :=
                [("description", if negb (py_truth PyNone) then description row
                                 else PyStr "");
                 ("filename", PyStr filename);
                 ("date", date row)] in
              match properties_loop properties kws with
              | Err x => Err x
              | Ok properties' =>
                  Ok (Some (PyDict
                    [("type", PyStr "Feature");
                     ("geometry", PyDict [("type", PyStr "Point");
                                          ("coordinates", PyList [longitude row; latitude row])]);
                     ("properties", PyDict properties')]))
              end
          end
      | _ => Err AttributeError
      end
  end%string.

(** [for row in rows: f = create_feature(RowData( *row)); if f is not None:
    features.append(f)] *)
Fixpoint collect_features (features : list pyval) (rows : list RowData)
    : result (list pyval) :=
  match rows with
  | [] => Ok features
  | row :: rest =>
      match create_feature row with
      | Err x => Err x
      | Ok None => collect_features features rest
      | Ok (Some f) => collect_features (features ++ [f]) rest
      end
  end.

(** The double quote character. *)
Definition dq : string := String "034"%char EmptyString.

(** [str(album_name)] of [os.environ.get("ALBUM")]. *)
Definition py_str_opt (v : option string) : string :=
  match v with Some s => s | None => "None"%string end.

Definition query_text (album_name : option string) : string :=
  ("SELECT * FROM apple_photos WHERE albums = '[" ++ dq ++ py_str_opt album_name
   ++ dq ++ "]'")%string.

(** What [query_database] does: print the collection, print the error
    message of a [sqlite3.Error], or let another exception escape (after
    [conn.close()]). *)
Inductive query_output :=
  | Printed (blob : pyval)
  | PrintedError
  | Raised (x : exn).

(** [except sqlite3.Error as e: print("Error while querying the database:", e)] *)
Definition except_sqlite (x : exn) : query_output :=
  match x with SqliteErr => PrintedError | _ => Raised x end.

(** [run_query] stands for [connect], [execute] and [fetchall] on the
    query text: the rows, or the [sqlite3.Error] they raise. *)
Definition query_database (album_name : option string)
    (run_query : string -> result (list RowData)) : query_output :=
  match run_query (query_text album_name) with
  | Err x => except_sqlite x
  | Ok rows =>
      match collect_features [] rows with
      | Err x => except_sqlite x
      | Ok features =>
          Printed (PyDict [("type", PyStr "FeatureCollection"); ("features", PyList features)])
      end
  end%string.

(** ** Helpers for the statements *)

(** The last keyword with a given prefix. *)
Fixpoint last_with (pfx : string) (kws : list string) : option string :=
  match kws with
  | [] => None
  | kw :: rest =>
      match last_with pfx rest with
      | Some k => Some k
      | None => if String.prefix pfx kw then Some kw else None
      end
  end.

(** What [properties["Size"] = int(kw.split(":")[1])] stores for [kw]. *)
Definition size_of (kw : string) : option pyval :=
  match nth_error (str_split ":" kw) 1 with
  | Some f => option_map PyInt (py_int f)
  | None => None
  end.

(** What [properties["Type"] = kw.split(":")[1].title()] stores for [kw]. *)
Definition type_of (kw : string) : option pyval :=
  option_map (fun p => PyStr (str_title p)) (nth_error (str_split ":" kw) 1).

End Fetcher.

End Fetch.

(** * Concrete rows for [fetch.py]

    [demo_literal_eval] stands for [ast.literal_eval] on the keyword
    columns below, [demo_int] for [int] on strings of decimal digits. *)

Module FetchScenarios.
Import Fetch.

Fixpoint digits_value (s : string) (acc : Z) : option Z :=
  match s with
  | EmptyString => Some acc
  | String c s' =>
      let k := Z.of_nat (nat_of_ascii c) in
      if (48 <=? k)%Z && (k <=? 57)%Z then digits_value s' (10 * acc + (k - 48))%Z
      else None
  end.

Definition demo_int (s : string) : option Z :=
  match s with EmptyString => None | _ => digits_value s 0 end.

Definition kw_rack : string := "['size:4', 'type:bike rack', 'type:ring post']".
Definition kw_untagged : string := "['holiday', 'size:x']".
Definition kw_bad : string := "['type:rack', 'size:many']".

Definition demo_literal_eval (s : string) : option (list string) :=
  if String.eqb s kw_rack then Some ["size:4"; "type:bike rack"; "type:ring post"]%string
  else if String.eqb s kw_untagged then Some ["holiday"; "size:x"]%string
  else if String.eqb s kw_bad then Some ["type:rack"; "size:many"]%string
  else None.

Definition row_rack : RowData :=
  mk_RowData (PyStr "IMG_0001.edit.HEIC") PyNone (PyStr "2023-05-01 10:00:00")
    (PyStr kw_rack) (PyFloat (44645 # 1000)) (PyFloat (-63571 # 1000)).

Definition row_untagged : RowData :=
  mk_RowData (PyStr "IMG_0002.HEIC") (PyStr "beach") (PyStr "2023-06-01 12:00:00")
    (PyStr kw_untagged) (PyFloat (44 # 1)) (PyFloat (-63 # 1)).

Definition row_bad : RowData :=
  mk_RowData (PyStr "IMG_0003.HEIC") PyNone (PyStr "2023-07-01 09:00:00")
    (PyStr kw_bad) (PyFloat (44 # 1)) (PyFloat (-63 # 1)).

Definition feature_rack : pyval :=
  Eval vm_compute in
  match create_feature demo_literal_eval demo_int row_rack with
  | Ok (Some f) => f
  | _ => PyNone
  end.

Definition run_query_ok (q : string) : result (list RowData) := Ok [row_rack; row_untagged].
Definition run_query_bad (q : string) : result (list RowData) :=
  Ok [row_rack; row_bad; row_untagged].

End FetchScenarios.

(** * Properties *)

Module SyncFacts.
Import Sync.

Section Facts.

Variable md5 : list Byte.byte -> string.

(** ** Hashing *)

Lemma read_loop_buf (fuel : nat) (h : md5_obj) (d : list Byte.byte) :
  (length d < fuel)%nat -> md5_buf (read_loop fuel h d) = md5_buf h ++ d.
Proof.
  revert h d. induction fuel as [|fuel IH]; intros h d Hlt; [lia|].
  destruct d as [|x xs]; simpl.
  - by rewrite app_nil_r.
  - rewrite IH.
    + simpl. rewrite <-app_assoc. f_equal. apply (take_drop CHUNK_SIZE (x :: xs)).
    + rewrite length_drop. simpl in *. unfold CHUNK_SIZE. lia.
Qed.

Lemma fold_md5_update (chunks : list (list Byte.byte)) (h : md5_obj) :
  fold_left md5_update chunks h = mk_md5 (md5_buf h ++ concat chunks).
Proof.
  revert h. induction chunks as [|c cs IH]; intros h; simpl.
  - destruct h. by rewrite app_nil_r.
  - rewrite IH. simpl. by rewrite app_assoc.
Qed.

Lemma get_file_hash_ok (e : env) (p : string) (n : node) (d : list Byte.byte) :
  fs e p = Some n -> n_data n = Some d -> get_file_hash md5 e p = Ok (md5 d).
Proof.
  intros Hfs Hd. unfold get_file_hash. rewrite Hfs, Hd.
  unfold md5_hexdigest. rewrite read_loop_buf by lia. done.
Qed.

Lemma get_file_hash_Ok_inv (e : env) (p : string) (h : string) :
  get_file_hash md5 e p = Ok h ->
  exists n d, fs e p = Some n /\ n_data n = Some d /\ h = md5 d.
Proof.
  intros Hh. destruct (fs e p) as [n|] eqn:Hfs;
    [|unfold get_file_hash in Hh; rewrite Hfs in Hh; discriminate].
  destruct (n_data n) as [d|] eqn:Hd;
    [|unfold get_file_hash in Hh; rewrite Hfs, Hd in Hh; discriminate].
  rewrite (get_file_hash_ok e p n d Hfs Hd) in Hh. injection Hh as <-. eauto.
Qed.

(** ** Counting *)

Lemma sync_step_counts (e : env) (s : sync_state) (name : string) :
  let s' := sync_step md5 e s name in
  (uploaded_count s' = S (uploaded_count s) /\ skipped_count s' = skipped_count s
     /\ failed_count s' = failed_count s) \/
  (uploaded_count s' = uploaded_count s /\ skipped_count s' = S (skipped_count s)
     /\ failed_count s' = failed_count s) \/
  (uploaded_count s' = uploaded_count s /\ skipped_count s' = skipped_count s
     /\ failed_count s' = S (failed_count s)).
Proof.
  unfold sync_step. destruct (needs_upload md5 e (db s) name) as [[c h]|x]; simpl.
  - destruct (needs_upload_flag c); simpl.
    + destruct (upload_to_s3 e (db s) name h) as [[] st']; simpl; tauto.
    + tauto.
  - tauto.
Qed.

Lemma sync_from_counts (e : env) (s : sync_state) (names : list string) :
  let s' := sync_from md5 e s names in
  (uploaded_count s' + skipped_count s' + failed_count s'
   = uploaded_count s + skipped_count s + failed_count s + length names)%nat.
Proof.
  revert s. induction names as [|x xs IH]; intros s; simpl; [lia|].
  unfold sync_from in *. simpl. rewrite IH.
  destruct (sync_step_counts e s x) as [(-> & -> & ->)|[(-> & -> & ->)|(-> & -> & ->)]];
    lia.
Qed.

Lemma run_pass_Ok_inv (e : env) (st : store) (tr : list event) (s : sync_state) :
  run_pass md5 e st = Ok (tr, s) ->
  exists st1, cleanup_deleted_files e st = Ok (st1, tr) /\ s = sync_images md5 e st1.
Proof.
  unfold run_pass. destruct (cleanup_deleted_files e st) as [[st1 tr1]|x]; [|discriminate].
  intros H. injection H as <- <-. eauto.
Qed.

(** ** Enumeration *)

Lemma ascii_lower_not_J (c : ascii) : ascii_lower c <> "J"%char.
Proof.
  destruct c as [[] [] [] [] [] [] [] []]; vm_compute; discriminate.
Qed.

Lemma in_image_extensions_lower (x : string) :
  in_image_extensions (str_lower x) = true <->
  str_lower x = ".jpg"%string \/ str_lower x = ".jpeg"%string.
Proof.
  assert (HJ : forall t : string, str_lower x <> String "." (String "J" t)).
  { intros t H. destruct x as [|a [|b x]]; simpl in H; try discriminate.
    injection H as _ Hb _. by apply (ascii_lower_not_J b). }
  unfold in_image_extensions, IMAGE_EXTENSIONS. simpl.
  rewrite orb_false_r, !orb_true_iff, !String.eqb_eq.
  pose proof (HJ "PG"%string). pose proof (HJ "PEG"%string). tauto.
Qed.

Lemma filter_Permutation_ext {A} (f g : A -> bool) (l1 l2 : list A) :
  (forall x, f x = g x) -> Permutation l1 l2 ->
  Permutation (List.filter f l1) (List.filter g l2).
Proof.
  intros Hfg HP. induction HP as [|x l1 l2 _ IH|x y l|l1 l2 l3 _ IH1 _ IH2]; simpl.
  - constructor.
  - rewrite Hfg. destruct (g x); auto.
  - rewrite !Hfg, (filter_ext f g Hfg).
    destruct (g x), (g y); first [apply perm_swap | reflexivity].
  - etransitivity; [apply IH1|].
    rewrite <-(filter_ext f g Hfg). done.
Qed.

(** ** Effects of one step on the table *)

Lemma needs_upload_Ok_inv (e : env) (st : store) (name : string) (c : cls) (h : string) :
  needs_upload md5 e st name = Ok (c, h) ->
  exists n, fs e (join (photos_dir e) name) = Some n /\
    get_file_hash md5 e (join (photos_dir e) name) = Ok h /\
    db_ok e (DbSelect (join (photos_dir e) name)) = true /\
    (c = Unchanged ->
       exists r, st !! join (photos_dir e) name = Some r /\ h = file_hash r /\
         n_size n = file_size r /\ n_mtime n = last_modified r).
Proof.
  unfold needs_upload. cbv zeta.
  destruct (fs e (join (photos_dir e) name)) as [n|] eqn:Hfs; [|discriminate].
  destruct (get_file_hash md5 e (join (photos_dir e) name)) as [h'|x] eqn:Hh; [|discriminate].
  destruct (db_ok e (DbSelect (join (photos_dir e) name))) eqn:Hdb; simpl; [|discriminate].
  destruct (st !! join (photos_dir e) name) as [r|] eqn:Hst.
  - destruct (String.eqb_spec h' (file_hash r));
    destruct (Z.eqb_spec (n_size n) (file_size r));
    destruct (Z.eqb_spec (n_mtime n) (last_modified r)); simpl;
    intros H; injection H as <- <-; exists n; repeat split; auto; try discriminate.
    intros _. exists r. auto.
  - intros H; injection H as <- <-. exists n. repeat split; auto. discriminate.
Qed.

Lemma upload_to_s3_cases (e : env) (st : store) (name h : string) :
  (upload_to_s3 e st name h).1 = false /\ (upload_to_s3 e st name h).2 = st \/
  (upload_to_s3 e st name h).1 = true /\
  exists n, fs e (join (photos_dir e) name) = Some n /\
    (upload_to_s3 e st name h).2
    = <[join (photos_dir e) name := mk_row h (n_size n) (n_mtime n) name]> st.
Proof.
  unfold upload_to_s3. cbv zeta.
  destruct (s3_upload_ok e (join (photos_dir e) name)); simpl; [|auto].
  destruct (fs e (join (photos_dir e) name)) as [n|] eqn:Hfs; [|auto].
  destruct (db_ok e (DbInsert (join (photos_dir e) name))); simpl; [|auto].
  right. split; [done|]. eauto.
Qed.

(** One step leaves the table alone, or uploads the candidate and stores
    a row with its current hash, size and mtime. *)
Lemma sync_step_db (e : env) (s : sync_state) (name : string) :
  let p := join (photos_dir e) name in
  let s' := sync_step md5 e s name in
  (db s' = db s /\ uploaded_count s' = uploaded_count s) \/
  (uploaded_count s' = S (uploaded_count s) /\
   skipped_count s' = skipped_count s /\ failed_count s' = failed_count s /\
   trace s' = trace s ++ [EvUpload p; EvResult name Uploaded] /\
   exists n h, fs e p = Some n /\ get_file_hash md5 e p = Ok h /\
     db s' = <[p := mk_row h (n_size n) (n_mtime n) name]> (db s)).
Proof.
  cbv zeta. unfold sync_step.
  destruct (needs_upload md5 e (db s) name) as [[c h]|x] eqn:Hn; simpl; [|auto].
  destruct (needs_upload_flag c); simpl; [|auto].
  destruct (upload_to_s3_cases e (db s) name h) as [[Hb Hst]|[Hb (n & Hfs & Hst)]];
    destruct (upload_to_s3 e (db s) name h) as [ok st']; simpl in *; subst ok; simpl.
  - auto.
  - right. repeat split; auto. exists n, h. subst st'. repeat split; auto.
    apply needs_upload_Ok_inv in Hn as (n' & _ & Hh & _). done.
Qed.

Lemma record_trace (s : sync_state) (o : outcome) (st : store) (evs : list event) :
  trace (record s o st evs) = trace s ++ evs.
Proof. by destruct o. Qed.

Lemma record_db (s : sync_state) (o : outcome) (st : store) (evs : list event) :
  db (record s o st evs) = st.
Proof. by destruct o. Qed.

(** The events a step appends: possibly a transfer, then its result. *)
Lemma sync_step_trace (e : env) (s : sync_state) (name : string) :
  exists o, trace (sync_step md5 e s name) = trace s ++ [EvResult name o] \/
    trace (sync_step md5 e s name)
    = trace s ++ [EvUpload (join (photos_dir e) name); EvResult name o].
Proof.
  unfold sync_step. cbv zeta.
  destruct (needs_upload md5 e (db s) name) as [[c h]|x].
  - destruct (needs_upload_flag c).
    + destruct (upload_to_s3 e (db s) name h) as [[] st'];
        eexists; right; reflexivity.
    + eexists; left; reflexivity.
  - eexists; left; reflexivity.
Qed.

Lemma sync_from_app (e : env) (s : sync_state) (l1 l2 : list string) :
  sync_from md5 e s (l1 ++ l2) = sync_from md5 e (sync_from md5 e s l1) l2.
Proof. unfold sync_from. apply fold_left_app. Qed.

Lemma sync_from_trace_prefix (e : env) (s : sync_state) (l : list string) :
  exists evs, trace (sync_from md5 e s l) = trace s ++ evs /\
    forall ev, In ev evs -> match ev with EvDelete _ => False | _ => True end.
Proof.
  revert s. induction l as [|x l IH]; intros s.
  - exists []. rewrite app_nil_r. split; [done|]. intros ? [].
  - unfold sync_from in *. simpl. destruct (IH (sync_step md5 e s x)) as (evs & Hevs & Hno).
    destruct (sync_step_trace e s x) as (o & [Ht|Ht]); rewrite Hevs, Ht.
    + exists (EvResult x o :: evs). rewrite <-app_assoc. split; [done|].
      intros ev [<-|Hin]; [done|]. by apply Hno.
    + exists (EvUpload (join (photos_dir e) x) :: EvResult x o :: evs).
      rewrite <-app_assoc. split; [done|].
      intros ev [<-|[<-|Hin]]; [done|done|]. by apply Hno.
Qed.

Lemma sync_from_results (e : env) (s : sync_state) (l : list string) (x : string) :
  In x l -> exists o, In (EvResult x o) (trace (sync_from md5 e s l)).
Proof.
  revert s. induction l as [|y l IH]; intros s Hin; [done|].
  unfold sync_from in *. simpl. destruct Hin as [Hy|Hin]; [subst y|by apply IH].
  destruct (sync_from_trace_prefix e (sync_step md5 e s x) l) as (evs & Hevs & _).
  unfold sync_from in Hevs. rewrite Hevs.
  destruct (sync_step_trace e s x) as (o & [Ht|Ht]); exists o; rewrite Ht;
    apply in_or_app; left; apply in_or_app; right; simpl; auto.
Qed.

(** ** Reconciliation *)

Lemma in_keys (st : store) (q : string) :
  In q (map fst (map_to_list st)) <-> is_Some (st !! q).
Proof.
  rewrite in_map_iff. split.
  - intros ([k v] & <- & Hin). simpl. exists v.
    apply elem_of_map_to_list. by apply list_elem_of_In.
  - intros [v Hv]. exists (q, v). split; [done|].
    apply list_elem_of_In. by apply elem_of_map_to_list.
Qed.

Lemma cleanup_loop_spec (e : env) (l : list string) (st : store) (r : nat)
    (tr : list event) (st' : store) (r' : nat) (tr' : list event) :
  cleanup_loop e st r tr l = Ok (st', r', tr') ->
  (forall q, (In q l /\ fs e q = None /\ st' !! q = None) \/
             (~ (In q l /\ fs e q = None) /\ st' !! q = st !! q)) /\
  exists dels, tr' = tr ++ map EvDelete dels /\ r' = (r + length dels)%nat /\
    forall q, In q dels <-> In q l /\ fs e q = None.
Proof.
  revert st r tr. induction l as [|p l IH]; intros st r tr H; simpl in H.
  - injection H as <- <- <-. split.
    + intros q. right. split; [intros [[] _]|done].
    + exists []. rewrite app_nil_r. split; [done|]. split; [simpl; lia|].
      intros q. simpl. tauto.
  - unfold path_exists in H. destruct (fs e p) as [np|] eqn:Hp.
    + destruct (IH _ _ _ H) as [Hq (dels & Htr & Hr & Hd)]. split.
      * intros q. destruct (Hq q) as [(Hin & Hn & Hs)|(Hn & Hs)].
        -- left. simpl. auto.
        -- right. split; [|done]. intros [[<-|Hin] Hnone]; [congruence|]. auto.
      * exists dels. split; [done|]. split; [done|]. intros q. rewrite Hd. simpl.
        split; [tauto|]. intros [[<-|Hin] Hn]; [congruence|]. auto.
    + destruct (db_ok e (DbDelete p)); [|discriminate].
      destruct (IH _ _ _ H) as [Hq (dels & Htr & Hr & Hd)]. split.
      * intros q. destruct (Hq q) as [(Hin & Hn & Hs)|(Hn & Hs)].
        -- left. simpl. auto.
        -- destruct (decide (q = p)) as [->|Hne].
           ++ left. split; [simpl; auto|]. split; [done|]. rewrite Hs.
              apply lookup_delete_eq.
           ++ right. split.
              ** intros [[<-|Hin] Hnone]; [done|]. auto.
              ** rewrite Hs. by apply lookup_delete_ne.
      * exists (p :: dels). split; [rewrite Htr, <-app_assoc; done|].
        split; [simpl; lia|]. intros q. simpl. rewrite Hd.
        split; [intros [<-|?]; tauto|]. intros [[<-|Hin] Hn]; auto.
Qed.

Lemma cleanup_spec (e : env) (st st' : store) (tr : list event) :
  cleanup_deleted_files e st = Ok (st', tr) ->
  (forall q, (is_Some (st !! q) /\ fs e q = None /\ st' !! q = None) \/
             (~ (is_Some (st !! q) /\ fs e q = None) /\ st' !! q = st !! q)) /\
  (forall q, In (EvDelete q) tr <-> is_Some (st !! q) /\ fs e q = None) /\
  (forall ev, In ev tr -> exists q, ev = EvDelete q).
Proof.
  unfold cleanup_deleted_files.
  destruct (db_ok e DbSelectAll); simpl; [|discriminate].
  destruct (cleanup_loop e st 0 [] (map fst (map_to_list st)))
    as [[[st1 r1] tr1]|x] eqn:Hl; [|discriminate].
  destruct ((0 <? r1)%nat && negb (db_ok e DbCommit)); [discriminate|].
  intros H. injection H as <- <-.
  apply cleanup_loop_spec in Hl as [Hq (dels & Htr & _ & Hd)]. simpl in Htr. subst tr1.
  split; [|split].
  - intros q. rewrite <-in_keys. apply Hq.
  - intros q. rewrite <-in_keys, <-Hd, in_map_iff. split.
    + intros (q' & Hq' & Hin). injection Hq' as ->. done.
    + intros Hin. eauto.
  - intros ev Hin. apply in_map_iff in Hin as (q & <- & _). eauto.
Qed.

Lemma get_image_files_perm (e : env) :
  forall e' : env, photos_dir e' = photos_dir e -> (forall p, fs e' p = fs e p) ->
    Permutation (dir_listing e') (dir_listing e) ->
    get_image_files e' = get_image_files e.
Proof.
  intros e' Hd Hfs HP. unfold get_image_files.
  apply (Sorted_unique String.le); [apply Sorted_merge_sort; apply _
    |apply Sorted_merge_sort; apply _|].
  rewrite !merge_sort_Permutation. apply filter_Permutation_ext; [|done].
  intros x. unfold is_image, is_file. by rewrite Hd, Hfs.
Qed.

Lemma sync_from_absent (e : env) (q : string) (l : list string) (s : sync_state) :
  fs e q = None -> db s !! q = None -> db (sync_from md5 e s l) !! q = None.
Proof.
  revert s. induction l as [|x l IH]; intros s Hq Hs; [done|].
  unfold sync_from in *. simpl. apply IH; [done|].
  destruct (sync_step_db e s x) as [[-> _]|(_ & _ & _ & _ & n & h & Hfs & _ & ->)]; [done|].
  rewrite lookup_insert_ne; [done|]. intros <-. congruence.
Qed.

Lemma sync_step_unreadable (e : env) (s : sync_state) (name : string) (n : node) :
  fs e (join (photos_dir e) name) = Some n -> n_data n = None ->
  sync_step md5 e s name = record s Failed (db s) [EvResult name Failed].
Proof.
  intros Hfs Hd. unfold sync_step, needs_upload. cbv zeta.
  unfold get_file_hash. rewrite Hfs, Hd. done.
Qed.

Lemma sync_step_transfer_error (e : env) (s : sync_state) (name : string) (c : cls) (h : string) :
  needs_upload md5 e (db s) name = Ok (c, h) -> c <> Unchanged ->
  s3_upload_ok e (join (photos_dir e) name) = false ->
  sync_step md5 e s name
  = record s Failed (db s) [EvUpload (join (photos_dir e) name); EvResult name Failed].
Proof.
  intros Hn Hc Hs3. unfold sync_step. rewrite Hn.
  destruct c; [| |done]; simpl; unfold upload_to_s3; simpl; rewrite Hs3; done.
Qed.

(** ** Rows that agree with the file system *)

(** [q] has a row whose hash, size and mtime are those of the readable
    file now at [q]. *)
Lemma sync_step_keeps_match (e : env) (s : sync_state) (x q : string) :
  (exists r n d, db s !! q = Some r /\ fs e q = Some n /\ n_data n = Some d /\
     file_hash r = md5 d /\ file_size r = n_size n /\ last_modified r = n_mtime n) ->
  (exists r n d, db (sync_step md5 e s x) !! q = Some r /\ fs e q = Some n /\
     n_data n = Some d /\
     file_hash r = md5 d /\ file_size r = n_size n /\ last_modified r = n_mtime n).
Proof.
  intros (r & n & d & Hr & Hfs & Hd & H1 & H2 & H3).
  destruct (sync_step_db e s x) as [[-> _]|(_ & _ & _ & _ & n' & h & Hfs' & Hh & ->)].
  - exists r, n, d. repeat split; auto.
  - destruct (decide (join (photos_dir e) x = q)) as [<-|Hne].
    + rewrite lookup_insert_eq. apply get_file_hash_Ok_inv in Hh as (n2 & d2 & Hf2 & Hd2 & ->).
      rewrite Hfs in Hfs'. rewrite Hfs in Hf2. injection Hfs' as <-. injection Hf2 as <-.
      rewrite Hd in Hd2. injection Hd2 as <-.
      eexists _, n, d. simpl. repeat split; auto.
    + rewrite lookup_insert_ne by done. exists r, n, d. repeat split; auto.
Qed.

Lemma sync_from_keeps_match (e : env) (l : list string) (s : sync_state) (q : string) :
  (exists r n d, db s !! q = Some r /\ fs e q = Some n /\ n_data n = Some d /\
     file_hash r = md5 d /\ file_size r = n_size n /\ last_modified r = n_mtime n) ->
  (exists r n d, db (sync_from md5 e s l) !! q = Some r /\ fs e q = Some n /\
     n_data n = Some d /\
     file_hash r = md5 d /\ file_size r = n_size n /\ last_modified r = n_mtime n).
Proof.
  revert s. induction l as [|x l IH]; intros s H; [done|].
  unfold sync_from in *. simpl. apply IH. by apply sync_step_keeps_match.
Qed.

(** A step that does not fail leaves a matching row for its candidate. *)
Lemma sync_step_nofail_match (e : env) (s : sync_state) (x : string) :
  failed_count (sync_step md5 e s x) = failed_count s ->
  exists r n d, db (sync_step md5 e s x) !! join (photos_dir e) x = Some r /\
    fs e (join (photos_dir e) x) = Some n /\ n_data n = Some d /\
    file_hash r = md5 d /\ file_size r = n_size n /\ last_modified r = n_mtime n.
Proof.
  unfold sync_step at 1 2. cbv zeta.
  destruct (needs_upload md5 e (db s) x) as [[c h]|y] eqn:Hn; [|simpl; lia].
  destruct (needs_upload_Ok_inv e (db s) x c h Hn) as (n & Hfs & Hh & _ & Hun).
  destruct (get_file_hash_Ok_inv e _ h Hh) as (n' & d & Hfs' & Hd & Hhd).
  rewrite Hfs in Hfs'. injection Hfs' as <-.
  destruct c; simpl.
  1,2: destruct (upload_to_s3_cases e (db s) x h) as [[Hb Hst]|[Hb (n2 & Hfs2 & Hst)]];
    destruct (upload_to_s3 e (db s) x h) as [ok st']; simpl in *; subst ok; simpl; [lia|];
    intros _; subst st'; rewrite lookup_insert_eq;
    rewrite Hfs in Hfs2; injection Hfs2 as <-;
    eexists _, n, d; simpl; repeat split; auto.
  intros _. destruct (Hun eq_refl) as (r & Hr & E1 & E2 & E3).
  exists r, n, d. subst h. repeat split; auto.
Qed.

Lemma sync_from_failed_mono (e : env) (l : list string) (s : sync_state) :
  (failed_count s <= failed_count (sync_from md5 e s l))%nat.
Proof.
  revert s. induction l as [|x l IH]; intros s; simpl; [lia|].
  unfold sync_from in *. simpl. specialize (IH (sync_step md5 e s x)).
  destruct (sync_step_counts e s x) as [(_ & _ & Hf)|[(_ & _ & Hf)|(_ & _ & Hf)]];
    rewrite Hf in IH; lia.
Qed.

Lemma sync_from_nofail_match (e : env) (l : list string) (s : sync_state) :
  failed_count (sync_from md5 e s l) = failed_count s ->
  forall x, In x l ->
  exists r n d, db (sync_from md5 e s l) !! join (photos_dir e) x = Some r /\
    fs e (join (photos_dir e) x) = Some n /\ n_data n = Some d /\
    file_hash r = md5 d /\ file_size r = n_size n /\ last_modified r = n_mtime n.
Proof.
  revert s. induction l as [|y l IH]; intros s Hf x Hin; [done|].
  unfold sync_from in *. simpl in *.
  pose proof (sync_from_failed_mono e l (sync_step md5 e s y)) as Hm. unfold sync_from in Hm.
  assert (Hy : failed_count (sync_step md5 e s y) = failed_count s).
  { destruct (sync_step_counts e s y) as [(_ & _ & ->)|[(_ & _ & ->)|(_ & _ & Hs)]];
      [done|done|]. rewrite Hs in Hm. lia. }
  destruct Hin as [Hxy|Hin].
  - subst y. apply sync_from_keeps_match. by apply sync_step_nofail_match.
  - apply IH; [lia|done].
Qed.

(** On candidates whose rows all match, a step uploads nothing: it
    skips, or fails when the lookup itself fails. *)
Lemma sync_step_matched (e : env) (s : sync_state) (x : string) :
  (exists r n d, db s !! join (photos_dir e) x = Some r /\
     fs e (join (photos_dir e) x) = Some n /\ n_data n = Some d /\
     file_hash r = md5 d /\ file_size r = n_size n /\ last_modified r = n_mtime n) ->
  (db_ok e (DbSelect (join (photos_dir e) x)) = true ->
     sync_step md5 e s x = record s Skipped (db s) [EvResult x Skipped]) /\
  (db_ok e (DbSelect (join (photos_dir e) x)) = false ->
     sync_step md5 e s x = record s Failed (db s) [EvResult x Failed]).
Proof.
  intros (r & n & d & Hr & Hfs & Hd & E1 & E2 & E3).
  unfold sync_step, needs_upload. cbv zeta.
  rewrite Hfs, (get_file_hash_ok e _ n d Hfs Hd).
  split; intros Hdb; rewrite Hdb; simpl; [|done].
  rewrite Hr, E1, E2, E3, String.eqb_refl, !Z.eqb_refl. done.
Qed.

Lemma sync_from_matched (e : env) (l : list string) (s : sync_state) :
  (forall x, In x l ->
     exists r n d, db s !! join (photos_dir e) x = Some r /\
       fs e (join (photos_dir e) x) = Some n /\ n_data n = Some d /\
       file_hash r = md5 d /\ file_size r = n_size n /\ last_modified r = n_mtime n) ->
  uploaded_count (sync_from md5 e s l) = uploaded_count s /\
  db (sync_from md5 e s l) = db s /\
  ((forall p, db_ok e (DbSelect p) = true) ->
     skipped_count (sync_from md5 e s l) = (skipped_count s + length l)%nat /\
     failed_count (sync_from md5 e s l) = failed_count s /\
     trace (sync_from md5 e s l) = trace s ++ map (fun x => EvResult x Skipped) l).
Proof.
  revert s. induction l as [|x l IH]; intros s Hm.
  - simpl. split; [done|]. split; [done|]. intros _. rewrite app_nil_r. split; [lia|done].
  - unfold sync_from in *. simpl.
    destruct (sync_step_matched e s x (Hm x (or_introl eq_refl))) as [Hok Hko].
    assert (Hdb : db (sync_step md5 e s x) = db s /\
                  uploaded_count (sync_step md5 e s x) = uploaded_count s).
    { destruct (db_ok e (DbSelect (join (photos_dir e) x))) eqn:E;
        [rewrite Hok by done|rewrite Hko by done]; done. }
    destruct Hdb as [Hdb Hup].
    destruct (IH (sync_step md5 e s x)) as (IH1 & IH2 & IH3).
    { intros y Hy. rewrite Hdb. apply Hm. simpl. auto. }
    split; [lia|]. split; [congruence|].
    intros Hsel. destruct (IH3 Hsel) as (K1 & K2 & K3).
    rewrite (Hok (Hsel _)) in K1, K2, K3 |- *. simpl in *.
    split; [lia|]. split; [done|]. rewrite K3, <-app_assoc. done.
Qed.

(** ** Errors of the table *)

Lemma cleanup_loop_Err (e : env) (l : list string) (st : store) (r : nat)
    (tr : list event) (x : exn) :
  cleanup_loop e st r tr l = Err x -> x = SqliteError.
Proof.
  revert st r tr. induction l as [|p l IH]; intros st r tr; simpl; [discriminate|].
  destruct (path_exists e p); [apply IH|].
  destruct (db_ok e (DbDelete p)); [apply IH|]. intros H. by injection H.
Qed.

Lemma cleanup_loop_delete_fails (e : env) (l : list string) (q : string) :
  In q l -> fs e q = None -> db_ok e (DbDelete q) = false ->
  forall st r tr, cleanup_loop e st r tr l = Err SqliteError.
Proof.
  intros Hin Hq Hdb. induction l as [|p l IH]; [done|]. intros st r tr. simpl.
  destruct Hin as [Hp|Hin].
  - subst p. unfold path_exists. rewrite Hq, Hdb. done.
  - destruct (path_exists e p); [by apply IH|].
    destruct (db_ok e (DbDelete p)); [by apply IH|done].
Qed.

(** ** Claims *)

(** C1. Classification: a file with no row is [New]; with a row, it is
    [Modified] exactly when the hash, the size or the mtime differs, and
    [Unchanged] exactly when all three agree; the hash is computed in
    every case, so an unreadable file is an error even when a row exists. *)
Theorem needs_upload_policy (e : env) (st : store) (name : string)
    (n : node) (h : string) :
  fs e (join (photos_dir e) name) = Some n ->
  (n_data n = None -> needs_upload md5 e st name = Err OSError) /\
  (get_file_hash md5 e (join (photos_dir e) name) = Ok h ->
   db_ok e (DbSelect (join (photos_dir e) name)) = true ->
   (st !! join (photos_dir e) name = None ->
      needs_upload md5 e st name = Ok (New, h)) /\
   (forall r : file_state, st !! join (photos_dir e) name = Some r ->
      (needs_upload md5 e st name = Ok (Modified, h) <->
         h <> file_hash r \/ n_size n <> file_size r \/ n_mtime n <> last_modified r) /\
      (needs_upload md5 e st name = Ok (Unchanged, h) <->
         h = file_hash r /\ n_size n = file_size r /\ n_mtime n = last_modified r))).
Proof.
  intros Hfs. split.
  - intros Hd. unfold needs_upload. cbv zeta. rewrite Hfs.
    unfold get_file_hash. rewrite Hfs, Hd. done.
  - intros Hh Hdb. unfold needs_upload. cbv zeta. rewrite Hfs, Hh, Hdb. simpl.
    split.
    + intros ->. done.
    + intros r ->.
      destruct (String.eqb_spec h (file_hash r)) as [Eh|Eh];
      destruct (Z.eqb_spec (n_size n) (file_size r)) as [Es|Es];
      destruct (Z.eqb_spec (n_mtime n) (last_modified r)) as [Em|Em];
      simpl; split; split; intros H; try discriminate; try done; try tauto;
      destruct H as [?|[?|?]]; contradiction.
Qed.

(** C9. The digest depends only on the bytes of the file: two readable
    files with the same content get the same digest, the MD5 of that
    content, and feeding the bytes in any chunks gives that digest. *)
Theorem get_file_hash_content_only (e1 e2 : env) (p1 p2 : string)
    (n1 n2 : node) (d : list Byte.byte) :
  fs e1 p1 = Some n1 -> fs e2 p2 = Some n2 ->
  n_data n1 = Some d -> n_data n2 = Some d ->
  get_file_hash md5 e1 p1 = get_file_hash md5 e2 p2 /\
  get_file_hash md5 e1 p1 = Ok (md5 d) /\
  (forall chunks : list (list Byte.byte), concat chunks = d ->
     md5_hexdigest md5 (fold_left md5_update chunks md5_new) = md5 d).
Proof.
  intros H1 H2 D1 D2.
  rewrite (get_file_hash_ok e1 p1 n1 d H1 D1), (get_file_hash_ok e2 p2 n2 d H2 D2).
  split; [done|]. split; [done|].
  intros chunks Hc. rewrite fold_md5_update. unfold md5_hexdigest. simpl. by rewrite Hc.
Qed.

(** C10. Every candidate increments exactly one counter, so at the end of
    a pass [uploaded + skipped + failed] is the number of candidates. *)
Theorem counters_partition (e : env) (st : store) :
  (forall (s : sync_state) (name : string),
     let s' := sync_step md5 e s name in
     (uploaded_count s' = S (uploaded_count s) /\ skipped_count s' = skipped_count s
        /\ failed_count s' = failed_count s) \/
     (uploaded_count s' = uploaded_count s /\ skipped_count s' = S (skipped_count s)
        /\ failed_count s' = failed_count s) \/
     (uploaded_count s' = uploaded_count s /\ skipped_count s' = skipped_count s
        /\ failed_count s' = S (failed_count s))) /\
  (forall (tr : list event) (s : sync_state),
     run_pass md5 e st = Ok (tr, s) ->
     (uploaded_count s + skipped_count s + failed_count s
      = length (get_image_files e))%nat).
Proof.
  split.
  - intros s name. apply sync_step_counts.
  - intros tr s Hrun. apply run_pass_Ok_inv in Hrun as (st1 & _ & ->).
    unfold sync_images. rewrite sync_from_counts. simpl. lia.
Qed.

(** C7. The candidates are the names listed directly in the directory
    whose path is a file and whose suffix, lower-cased, is [.jpg] or
    [.jpeg]; they come sorted, and a listing in any other order of the
    same directory gives the same list. *)
Theorem get_image_files_spec (e : env) :
  (forall name : string, In name (get_image_files e) <->
     In name (dir_listing e) /\ is_file e (join (photos_dir e) name) = true /\
     (str_lower (path_suffix name) = ".jpg"%string \/
      str_lower (path_suffix name) = ".jpeg"%string)) /\
  Sorted String.le (get_image_files e) /\
  (forall e' : env, photos_dir e' = photos_dir e -> (forall p, fs e' p = fs e p) ->
     Permutation (dir_listing e') (dir_listing e) ->
     get_image_files e' = get_image_files e).
Proof.
  split; [|split].
  - intros name. unfold get_image_files. split.
    + intros Hin. apply (Permutation_in _ (merge_sort_Permutation _ _)) in Hin.
      apply filter_In in Hin as [Hl Him]. unfold is_image in Him.
      apply andb_prop in Him as [Hf Hx]. apply in_image_extensions_lower in Hx. tauto.
    + intros (Hl & Hf & Hx). apply (Permutation_in _ (Permutation_sym (merge_sort_Permutation _ _))).
      apply filter_In. split; [done|]. unfold is_image. rewrite Hf. simpl.
      by apply in_image_extensions_lower.
  - unfold get_image_files. apply Sorted_merge_sort. apply _.
  - apply get_image_files_perm.
Qed.

(** C8. The table changes only in two ways: a step that uploads a file
    stores that file's row (current hash, size and mtime), and the
    reconciliation deletes the rows of paths that are gone; a skipped
    (Unchanged) or failed candidate leaves the whole table as it was. *)
Theorem record_frame (e : env) (st : store) :
  (forall (s : sync_state) (name : string),
     (skipped_count (sync_step md5 e s name) = S (skipped_count s) ->
        db (sync_step md5 e s name) = db s) /\
     (failed_count (sync_step md5 e s name) = S (failed_count s) ->
        db (sync_step md5 e s name) = db s) /\
     (db (sync_step md5 e s name) = db s \/
      (uploaded_count (sync_step md5 e s name) = S (uploaded_count s) /\
       In (EvUpload (join (photos_dir e) name)) (trace (sync_step md5 e s name)) /\
       exists n h, fs e (join (photos_dir e) name) = Some n /\
         get_file_hash md5 e (join (photos_dir e) name) = Ok h /\
         db (sync_step md5 e s name)
         = <[join (photos_dir e) name := mk_row h (n_size n) (n_mtime n) name]> (db s)))) /\
  (forall (st' : store) (tr : list event), cleanup_deleted_files e st = Ok (st', tr) ->
     forall q : string, st' !! q = st !! q \/
       (st' !! q = None /\ fs e q = None /\ In (EvDelete q) tr)).
Proof.
  split.
  - intros s name.
    destruct (sync_step_db e s name)
      as [[Hdb Hu]|(Hu & Hk & Hf & Ht & n & h & Hfs & Hh & Hdb)]; cbv zeta in *.
    + auto.
    + split; [intros; lia|]. split; [intros; lia|]. right.
      split; [done|]. split; [rewrite Ht; apply in_or_app; right; simpl; auto|]. eauto.
  - intros st' tr Hc q. destruct (cleanup_spec e st st' tr Hc) as [Hq [Hd _]].
    destruct (Hq q) as [(Hs & Hn & Hnone)|(_ & Heq)]; [right|left; done].
    split; [done|]. split; [done|]. by apply Hd.
Qed.

(** C3. A pass first deletes the row of every path that no longer exists
    (its events are exactly those deletions, and the upload part deletes
    nothing), after the pass no absent path has a row, and so a file that
    reappears at such a path is classified [New]. *)
Theorem reconcile_before_upload (e : env) (st : store) (tr : list event)
    (s : sync_state) :
  run_pass md5 e st = Ok (tr, s) ->
  (forall q : string, fs e q = None -> db s !! q = None) /\
  (forall q : string, In (EvDelete q) tr <-> is_Some (st !! q) /\ fs e q = None) /\
  (forall ev : event, In ev tr -> exists q, ev = EvDelete q) /\
  (forall q : string, ~ In (EvDelete q) (trace s)) /\
  (forall (e' : env) (name : string) (n : node) (h : string),
     fs e (join (photos_dir e') name) = None ->
     fs e' (join (photos_dir e') name) = Some n ->
     get_file_hash md5 e' (join (photos_dir e') name) = Ok h ->
     db_ok e' (DbSelect (join (photos_dir e') name)) = true ->
     needs_upload md5 e' (db s) name = Ok (New, h)).
Proof.
  intros Hrun. apply run_pass_Ok_inv in Hrun as (st1 & Hc & ->).
  destruct (cleanup_spec e st st1 tr Hc) as [Hq [Hd Hev]].
  assert (Habs : forall q, fs e q = None -> db (sync_images md5 e st1) !! q = None).
  { intros q Hn. apply sync_from_absent; [done|]. simpl.
    destruct (Hq q) as [(_ & _ & ?)|(Hnot & ->)]; [done|].
    destruct (st !! q) eqn:E; [|done]. exfalso. apply Hnot. split; [eauto|done]. }
  split; [done|]. split; [done|]. split; [done|]. split.
  - intros q Hin. destruct (sync_from_trace_prefix e (mk_ss 0 0 0 st1 []) (get_image_files e))
      as (evs & Hevs & Hno).
    unfold sync_images in Hin. rewrite Hevs in Hin. simpl in Hin. apply (Hno _ Hin).
  - intros e' name n h Hgone Hfs Hh Hdb. unfold needs_upload. cbv zeta.
    rewrite Hfs, Hh, Hdb. simpl. rewrite (Habs _ Hgone). done.
Qed.

(** C4. When a candidate's upload fails, because the file cannot be read
    for hashing or because the transfer fails, that step counts a failure,
    writes no row, and the pass goes on with the remaining candidates,
    each of which gets its own result. *)
Theorem upload_failure_isolated (e : env) (st : store) (l1 l2 : list string)
    (name : string) :
  get_image_files e = l1 ++ name :: l2 ->
  ((exists n, fs e (join (photos_dir e) name) = Some n /\ n_data n = None) \/
   (exists c h, needs_upload md5 e (db (sync_from md5 e (mk_ss 0 0 0 st []) l1)) name
                = Ok (c, h) /\ c <> Unchanged /\
                s3_upload_ok e (join (photos_dir e) name) = false)) ->
  let s1 := sync_from md5 e (mk_ss 0 0 0 st []) l1 in
  let s2 := sync_step md5 e s1 name in
  failed_count s2 = S (failed_count s1) /\
  uploaded_count s2 = uploaded_count s1 /\ skipped_count s2 = skipped_count s1 /\
  db s2 = db s1 /\ In (EvResult name Failed) (trace s2) /\
  sync_images md5 e st = sync_from md5 e s2 l2 /\
  (forall x : string, In x l2 -> exists o, In (EvResult x o) (trace (sync_images md5 e st))).
Proof.
  intros Hl Hfail s1 s2.
  assert (Hrest : sync_images md5 e st = sync_from md5 e s2 l2).
  { unfold sync_images. rewrite Hl, sync_from_app. done. }
  assert (Hs2 : exists evs, s2 = record s1 Failed (db s1) (evs ++ [EvResult name Failed])).
  { destruct Hfail as [(n & Hfs & Hd)|(c & h & Hn & Hc & Hs3)].
    - exists []. apply sync_step_unreadable with n; done.
    - exists [EvUpload (join (photos_dir e) name)].
      apply sync_step_transfer_error with c h; done. }
  destruct Hs2 as [evs Hs2].
  split; [rewrite Hs2; done|]. split; [rewrite Hs2; done|].
  split; [rewrite Hs2; done|]. split; [rewrite Hs2; done|].
  split; [rewrite Hs2; simpl; apply in_or_app; right; apply in_or_app; right; simpl; auto|].
  split; [done|].
  intros x Hx. rewrite Hrest. by apply sync_from_results.
Qed.

(** C2. Idempotence: after a pass in which nothing failed, a second pass
    over the same files uploads nothing; when its lookups succeed, every
    candidate is skipped as [Unchanged]. *)
Theorem second_pass_uploads_nothing (e1 e2 : env) (st : store)
    (tr1 : list event) (s1 : sync_state) :
  run_pass md5 e1 st = Ok (tr1, s1) ->
  failed_count s1 = 0%nat ->
  photos_dir e2 = photos_dir e1 -> (forall p, fs e2 p = fs e1 p) ->
  Permutation (dir_listing e2) (dir_listing e1) ->
  forall (tr2 : list event) (s2 : sync_state),
  run_pass md5 e2 (db s1) = Ok (tr2, s2) ->
  uploaded_count s2 = 0%nat /\
  ((forall p, db_ok e2 (DbSelect p) = true) ->
     skipped_count s2 = length (get_image_files e2) /\ failed_count s2 = 0%nat /\
     trace s2 = map (fun x => EvResult x Skipped) (get_image_files e2)).
Proof.
  intros Hrun1 Hf1 Hdir Hfs Hperm tr2 s2 Hrun2.
  apply run_pass_Ok_inv in Hrun1 as (st1 & _ & ->).
  apply run_pass_Ok_inv in Hrun2 as (st2 & Hc2 & ->).
  rewrite (get_image_files_perm e1 e2 Hdir Hfs Hperm).
  pose proof (sync_from_nofail_match e1 (get_image_files e1) (mk_ss 0 0 0 st1 []) Hf1)
    as Hm1.
  fold (sync_images md5 e1 st1) in Hm1.
  assert (Hm2 : forall x, In x (get_image_files e1) ->
     exists r n d, st2 !! join (photos_dir e2) x = Some r /\
       fs e2 (join (photos_dir e2) x) = Some n /\ n_data n = Some d /\
       file_hash r = md5 d /\ file_size r = n_size n /\ last_modified r = n_mtime n).
  { intros x Hx. destruct (Hm1 x Hx) as (r & n & d & Hr & Hn & Hd & E).
    rewrite Hdir, Hfs. exists r, n, d. split; [|split; [exact Hn|split; [exact Hd|exact E]]].
    destruct (cleanup_spec e2 _ _ _ Hc2) as [Hq _].
    destruct (Hq (join (photos_dir e1) x)) as [(_ & Hnone & _)|(_ & Heq)].
    - rewrite Hfs in Hnone. congruence.
    - by rewrite Heq. }
  unfold sync_images.
  destruct (sync_from_matched e2 (get_image_files e1) (mk_ss 0 0 0 st2 []) Hm2)
    as (U & _ & K).
  rewrite (get_image_files_perm e1 e2 Hdir Hfs Hperm).
  split; [done|]. intros Hsel. destruct (K Hsel) as (K1 & K2 & K3).
  split; [done|]. split; [done|]. done.
Qed.

(** C5, as the code does it. A failure of the table during the
    reconciliation (listing the rows, deleting one, committing) aborts the
    pass with the error; a failure during a candidate's lookup or during
    the [INSERT OR REPLACE] after its upload is caught as that candidate's
    failure: the step counts a failure, keeps the table, and once the
    reconciliation is done the pass always runs to its end. *)
Theorem store_errors_split (e : env) (st : store) :
  (db_ok e DbSelectAll = false -> run_pass md5 e st = Err SqliteError) /\
  (forall q : string, is_Some (st !! q) -> fs e q = None ->
     db_ok e (DbDelete q) = false -> run_pass md5 e st = Err SqliteError) /\
  (forall q : string, is_Some (st !! q) -> fs e q = None ->
     db_ok e DbCommit = false -> run_pass md5 e st = Err SqliteError) /\
  (forall (s : sync_state) (name : string),
     db_ok e (DbSelect (join (photos_dir e) name)) = false ->
     sync_step md5 e s name = record s Failed (db s) [EvResult name Failed]) /\
  (forall (s : sync_state) (name : string) (c : cls) (h : string),
     needs_upload md5 e (db s) name = Ok (c, h) -> c <> Unchanged ->
     s3_upload_ok e (join (photos_dir e) name) = true ->
     db_ok e (DbInsert (join (photos_dir e) name)) = false ->
     sync_step md5 e s name
     = record s Failed (db s) [EvUpload (join (photos_dir e) name); EvResult name Failed]) /\
  (forall (st1 : store) (tr1 : list event), cleanup_deleted_files e st = Ok (st1, tr1) ->
     run_pass md5 e st = Ok (tr1, sync_images md5 e st1)).
Proof.
  split; [|split; [|split; [|split; [|split]]]].
  - intros H. unfold run_pass, cleanup_deleted_files. rewrite H. done.
  - intros q Hq Hn Hdb. unfold run_pass, cleanup_deleted_files.
    destruct (db_ok e DbSelectAll); [|done]. simpl.
    rewrite (cleanup_loop_delete_fails e _ q) by (try apply in_keys; done). done.
  - intros q Hq Hn Hc. unfold run_pass, cleanup_deleted_files.
    destruct (db_ok e DbSelectAll); [|done]. simpl.
    destruct (cleanup_loop e st 0 [] (map fst (map_to_list st)))
      as [[[st1 r1] tr1]|x] eqn:Hl.
    + apply cleanup_loop_spec in Hl as [_ (dels & _ & Hr & Hd)].
      assert (Hin : In q dels) by (apply Hd; split; [by apply in_keys|done]).
      destruct dels as [|d0 dels]; [done|]. simpl in Hr. subst r1. rewrite Hc. done.
    + apply cleanup_loop_Err in Hl. by subst x.
  - intros s name Hdb. unfold sync_step, needs_upload. cbv zeta.
    destruct (fs e (join (photos_dir e) name)); [|done].
    destruct (get_file_hash md5 e (join (photos_dir e) name)); [|done].
    rewrite Hdb. done.
  - intros s name c h Hn Hc Hs3 Hins. unfold sync_step. rewrite Hn.
    destruct (needs_upload_Ok_inv e _ _ _ _ Hn) as (n & Hfs & _).
    destruct c; [| |done]; simpl; unfold upload_to_s3; cbv zeta;
      rewrite Hs3; simpl; rewrite Hfs, Hins; done.
  - intros st1 tr1 H. unfold run_pass. rewrite H. done.
Qed.

(** C6, as the code does it. Once the syncer is set up, the status is 0
    exactly when the pass ends with no failure, and 1 when a file failed,
    the pass raised, or the user interrupted it; a setup error also ends
    with 1 (uncaught exception), but an interruption during the setup,
    which runs before [main]'s [try], is not turned into [exit(1)]. *)
Theorem exit_status_spec (e : env) (st : store) :
  (forall interrupted : bool,
     main md5 SetupOk interrupted e st = ExitCode 0 <->
     interrupted = false /\
     exists tr s, run_pass md5 e st = Ok (tr, s) /\ failed_count s = 0%nat) /\
  (forall (tr : list event) (s : sync_state), run_pass md5 e st = Ok (tr, s) ->
     (0 < failed_count s)%nat -> main md5 SetupOk false e st = ExitCode 1) /\
  (forall x : exn, run_pass md5 e st = Err x -> main md5 SetupOk false e st = ExitCode 1) /\
  main md5 SetupOk true e st = ExitCode 1 /\
  (forall interrupted : bool, main md5 SetupError interrupted e st = ExitCode 1) /\
  (forall interrupted : bool, main md5 SetupInterrupted interrupted e st = KilledBySigint).
Proof.
  split; [|split; [|split; [|split; [|split]]]].
  - intros b. unfold main. destruct b; simpl.
    + split; [discriminate|]. intros [? _]; discriminate.
    + destruct (run_pass md5 e st) as [[tr s]|x].
      * destruct (Nat.ltb_spec 0 (failed_count s)) as [Hlt|Hge].
        -- split; [discriminate|]. intros [_ (tr' & s' & H & Hf)].
           injection H as _ <-. lia.
        -- split; [|done]. intros _. split; [done|]. exists tr, s. split; [done|lia].
      * split; [discriminate|]. intros [_ (tr' & s' & H & _)]. discriminate.
  - intros tr s H Hf. unfold main. rewrite H.
    destruct (Nat.ltb_spec 0 (failed_count s)); [done|lia].
  - intros x H. unfold main. rewrite H. done.
  - done.
  - done.
  - done.
Qed.

End Facts.

End SyncFacts.

(** * Further properties of [sync_images.py] *)

Module SyncExtras.
Import Sync SyncFacts.

(** ** Helpers *)

Lemma ascii_lower_idem (c : ascii) : ascii_lower (ascii_lower c) = ascii_lower c.
Proof. destruct c as [[] [] [] [] [] [] [] []]; vm_compute; reflexivity. Qed.

Lemma str_lower_idem (s : string) : str_lower (str_lower s) = str_lower s.
Proof. induction s as [|c s IH]; simpl; [done|]. by rewrite ascii_lower_idem, IH. Qed.

Lemma string_app_inj_r (d a b : string) : String.append d a = String.append d b -> a = b.
Proof. induction d as [|c d IH]; simpl; [done|]. intros H. injection H. auto. Qed.

Lemma join_inj (d a b : string) : join d a = join d b -> a = b.
Proof.
  unfold join. intros H. apply string_app_inj_r in H. simpl in H. by injection H.
Qed.

Lemma NoDup_map_injective {A B} (f : A -> B) (l : list A) :
  (forall x y, f x = f y -> x = y) -> NoDup l -> NoDup (map f l).
Proof.
  intros Hf Hl. induction Hl as [|x l Hx Hl IH]; simpl; constructor; auto.
  intros Hin. apply list_elem_of_In, in_map_iff in Hin as (y & Hy & Hin).
  apply Hf in Hy. subst y. apply Hx. by apply list_elem_of_In.
Qed.

Lemma get_image_files_In (e : env) (name : string) :
  In name (get_image_files e) <-> In name (dir_listing e) /\ is_image e name = true.
Proof.
  unfold get_image_files. rewrite <-filter_In. split; apply Permutation_in;
    [|symmetry]; apply merge_sort_Permutation.
Qed.

Lemma get_image_files_NoDup (e : env) :
  NoDup (dir_listing e) -> NoDup (get_image_files e).
Proof.
  intros H. unfold get_image_files. rewrite merge_sort_Permutation.
  induction H as [|x l Hx Hl IH]; simpl; [constructor|].
  destruct (is_image e x); [|done]. constructor; [|done].
  intros Hin. apply Hx. apply list_elem_of_In in Hin. apply filter_In in Hin.
  apply list_elem_of_In. tauto.
Qed.

Lemma cleanup_loop_all_exist (e : env) (l : list string) (st : store) (r : nat)
    (tr : list event) :
  (forall q, In q l -> path_exists e q = true) -> cleanup_loop e st r tr l = Ok (st, r, tr).
Proof.
  induction l as [|p l IH]; intros H; simpl; [done|].
  rewrite H by (left; done). apply IH. intros q Hq. apply H. by right.
Qed.

Section Extras.

Variable md5 : list Byte.byte -> string.

Lemma sync_step_result (e : env) (s : sync_state) (x y : string) (o : outcome) :
  In (EvResult y o) (trace (sync_step md5 e s x)) ->
  In (EvResult y o) (trace s) \/
  (y = x /\ (o <> Failed -> failed_count (sync_step md5 e s x) = failed_count s)).
Proof.
  unfold sync_step. cbv zeta.
  destruct (needs_upload md5 e (db s) x) as [[c h]|z].
  - destruct (needs_upload_flag c).
    + destruct (upload_to_s3 e (db s) x h) as [[] st'];
        simpl; intros H; apply in_app_or in H as [H|H]; auto; right;
        simpl in H; destruct H as [H|[H|[]]]; try discriminate;
        injection H as <- <-; split; auto; by intros [].
    + simpl. intros H; apply in_app_or in H as [H|H]; auto; right.
      simpl in H; destruct H as [H|[]]. injection H as <- <-. auto.
  - simpl. intros H; apply in_app_or in H as [H|H]; auto; right.
    simpl in H; destruct H as [H|[]]. injection H as <- <-. split; [done|]. by intros [].
Qed.

Lemma sync_from_logged_match (e : env) (l : list string) (s : sync_state) :
  (forall y o, In (EvResult y o) (trace s) -> o <> Failed ->
     row_matches md5 (db s) e (join (photos_dir e) y)) ->
  forall y o, In (EvResult y o) (trace (sync_from md5 e s l)) -> o <> Failed ->
    row_matches md5 (db (sync_from md5 e s l)) e (join (photos_dir e) y).
Proof.
  revert s. induction l as [|x l IH]; intros s Hinv; [exact Hinv|].
  unfold sync_from in *. simpl. apply IH.
  intros y o Hin Ho. destruct (sync_step_result e s x y o Hin) as [Hold|[-> Hf]].
  - apply sync_step_keeps_match. by apply (Hinv y o).
  - apply sync_step_nofail_match. auto.
Qed.

Lemma sync_from_frame (e : env) (l : list string) (s : sync_state) (q : string) :
  (forall name, In name l -> join (photos_dir e) name <> q) ->
  db (sync_from md5 e s l) !! q = db s !! q.
Proof.
  revert s. induction l as [|x l IH]; intros s H; [done|].
  unfold sync_from in *. simpl. rewrite IH by (intros n Hn; apply H; by right).
  destruct (sync_step_db md5 e s x) as [[-> _]|(_ & _ & _ & _ & n & h & _ & _ & ->)]; [done|].
  apply lookup_insert_ne. apply H. by left.
Qed.

(** ** Extras *)

(** [upload_to_s3] sends every candidate of [get_image_files] with the
    content type [image/jpeg]: the suffix of a candidate is [.jpg] or
    [.jpeg] up to case, and [get_content_type] maps both, in any case, to
    [image/jpeg]. *)
Theorem candidate_content_type (e : env) (name : string) :
  In name (get_image_files e) ->
  up_content_type (upload_args e name) = "image/jpeg"%string.
Proof.
  intros Hin. apply get_image_files_In in Hin as [_ Himg].
  unfold is_image in Himg. apply andb_prop in Himg as [_ Hext].
  apply in_image_extensions_lower in Hext.
  unfold upload_args, get_content_type. simpl. rewrite str_lower_idem.
  destruct Hext as [-> | ->]; reflexivity.
Qed.

(** In a directory listing without repeated names, no two candidates of
    a pass share an S3 key, nor a [file_state] path: no upload of a pass
    overwrites another one's object or row. *)
Theorem candidate_keys_distinct (e : env) :
  NoDup (dir_listing e) ->
  NoDup (map (fun name => up_key (upload_args e name)) (get_image_files e)) /\
  NoDup (map (join (photos_dir e)) (get_image_files e)).
Proof.
  intros H. pose proof (get_image_files_NoDup e H) as Hnd. split.
  - apply NoDup_map_injective; [|done]. simpl. auto.
  - apply NoDup_map_injective; [|done]. apply join_inj.
Qed.

(** [cleanup_deleted_files] is idempotent: run again on the table it
    left, against the same directory, it deletes nothing, needs no commit
    and leaves the table as it is. *)
Theorem cleanup_idempotent (e : env) (st st1 : store) (tr : list event) :
  cleanup_deleted_files e st = Ok (st1, tr) ->
  cleanup_deleted_files e st1 = Ok (st1, []).
Proof.
  intros H. destruct (cleanup_spec e st st1 tr H) as [Hq _].
  unfold cleanup_deleted_files in H |- *.
  destruct (db_ok e DbSelectAll); simpl in *; [|discriminate].
  rewrite cleanup_loop_all_exist; [done|].
  intros q Hin. apply in_keys in Hin. unfold path_exists.
  destruct (fs e q) eqn:Hf; [done|]. exfalso.
  destruct (Hq q) as [(_ & _ & Hn)|(Hn & Hs)].
  - rewrite Hn in Hin. by destruct Hin.
  - apply Hn. rewrite <-Hs. done.
Qed.

(** [sync_images] only writes the rows of its candidates: the row of any
    other path is the one it had before the pass (or its absence). *)
Theorem sync_images_frame (e : env) (st : store) (q : string) :
  (forall name, In name (get_image_files e) -> join (photos_dir e) name <> q) ->
  db (sync_images md5 e st) !! q = st !! q.
Proof. intros H. unfold sync_images. by apply sync_from_frame. Qed.

(** After [sync_images], every candidate logged as uploaded or skipped has
    a row with the hash, size and mtime of its current file, whatever
    happened to the other candidates. *)
Theorem logged_success_matches (e : env) (st : store) (name : string) (o : outcome) :
  In (EvResult name o) (trace (sync_images md5 e st)) -> o <> Failed ->
  exists r n d, db (sync_images md5 e st) !! join (photos_dir e) name = Some r /\
    fs e (join (photos_dir e) name) = Some n /\ n_data n = Some d /\
    file_hash r = md5 d /\ file_size r = n_size n /\ last_modified r = n_mtime n.
Proof.
  intros Hin Ho. unfold sync_images in *.
  refine (sync_from_logged_match e (get_image_files e) (mk_ss 0 0 0 st []) _ name o Hin Ho).
  intros y o' [].
Qed.

End Extras.

End SyncExtras.

(** * Properties of [dogsheep/fetch.py] *)

Module FetchFacts.
Import Fetch.

(** ** Strings and dicts *)

Lemma str_split_nonempty (c : ascii) (s : string) : str_split c s <> [].
Proof.
  destruct s as [|a s]; simpl; [done|].
  destruct (Ascii.eqb a c); [done|]. by destruct (str_split c s).
Qed.

(** The first field of [s.split(c)] is the longest prefix of [s] without
    [c]. *)
Lemma str_split_first (c : ascii) (s base : string) (rest : list string) :
  str_split c s = base :: rest ->
  exists tail, s = String.append base tail /\
    ~ In c (list_ascii_of_string base) /\
    (tail = EmptyString \/ exists t, tail = String c t).
Proof.
  revert base rest. induction s as [|a s IH]; intros base rest H; simpl in H.
  - injection H as <- _. exists EmptyString. simpl. auto.
  - destruct (Ascii.eqb_spec a c) as [->|Hne].
    + injection H as <- _. exists (String c s). simpl.
      split; [reflexivity|]. split; [tauto|]. eauto.
    + destruct (str_split c s) as [|r rs] eqn:Hs; [by apply str_split_nonempty in Hs|].
      injection H as <- _. destruct (IH r rs eq_refl) as (tail & -> & Hno & Ht).
      exists tail. simpl. split; [done|]. split; [|done].
      intros [->|Hin]; [done|]. by apply Hno.
Qed.

Lemma str_split_no_sep (c : ascii) (s : string) :
  ~ In c (list_ascii_of_string s) -> str_split c s = [s].
Proof.
  induction s as [|a s IH]; intros H; simpl; [done|].
  destruct (Ascii.eqb_spec a c) as [->|Hne]; [simpl in H; tauto|].
  rewrite IH; [done|]. intros Hin. apply H. simpl. auto.
Qed.

Lemma dict_get_set_eq {V : Type} (k : string) (v : V) (d : list (string * V)) :
  Sync.dict_get k (dict_set k v d) = Some v.
Proof.
  induction d as [|[k' v'] d IH]; simpl.
  - by rewrite String.eqb_refl.
  - destruct (String.eqb_spec k k') as [<-|Hne]; simpl.
    + by rewrite String.eqb_refl.
    + apply String.eqb_neq in Hne. by rewrite Hne.
Qed.

Lemma dict_get_set_ne {V : Type} (k k' : string) (v : V) (d : list (string * V)) :
  k <> k' -> Sync.dict_get k (dict_set k' v d) = Sync.dict_get k d.
Proof.
  intros Hne. induction d as [|[k'' v'] d IH]; simpl.
  - apply String.eqb_neq in Hne. by rewrite Hne.
  - destruct (String.eqb_spec k' k'') as [<-|Hne']; simpl.
    + apply String.eqb_neq in Hne. by rewrite Hne.
    + by rewrite IH.
Qed.

Lemma x_flag_fold (kws : list string) (acc : bool) :
  fold_left (fun x kw => if String.prefix "type:" kw then false else x) kws acc
  = acc && forallb (fun kw => negb (String.prefix "type:" kw)) kws.
Proof.
  revert acc. induction kws as [|kw kws IH]; intros acc; simpl.
  - by rewrite andb_true_r.
  - rewrite IH. by destruct (String.prefix "type:" kw), acc.
Qed.

Lemma x_flag_spec (kws : list string) :
  x_flag kws = true <-> Forall (fun kw => String.prefix "type:" kw = false) kws.
Proof.
  unfold x_flag. rewrite x_flag_fold. simpl. rewrite forallb_forall, List.Forall_forall.
  split; intros H kw Hin; specialize (H kw Hin); by destruct (String.prefix "type:" kw).
Qed.

Section Facts.

Variable literal_eval : string -> option (list string).
Variable py_int : string -> option Z.

Lemma properties_step_spec (props props' : list (string * pyval)) (kw : string) :
  properties_step py_int props kw = Ok props' ->
  (forall k, k <> "Size"%string -> k <> "Type"%string ->
     Sync.dict_get k props' = Sync.dict_get k props) /\
  Sync.dict_get "Size" props'
    = (if String.prefix "size" kw then size_of py_int kw else Sync.dict_get "Size" props) /\
  Sync.dict_get "Type" props'
    = (if String.prefix "type" kw then type_of kw else Sync.dict_get "Type" props).
Proof.
  unfold properties_step, size_of, type_of.
  assert (Hst : "Size"%string <> "Type"%string) by discriminate.
  destruct (String.prefix "size" kw) eqn:Hsz.
  - destruct (nth_error (str_split ":" kw) 1) as [f|] eqn:Hf; [|discriminate].
    destruct (py_int f) as [n|] eqn:Hn; [|discriminate]. simpl.
    destruct (String.prefix "type" kw) eqn:Hty.
    + intros H. injection H as <-. split; [|split].
      * intros k H1 H2. rewrite !dict_get_set_ne by done. done.
      * rewrite dict_get_set_ne by done. apply dict_get_set_eq.
      * apply dict_get_set_eq.
    + intros H. injection H as <-. split; [|split].
      * intros k H1 H2. by rewrite dict_get_set_ne.
      * apply dict_get_set_eq.
      * rewrite dict_get_set_ne by congruence. done.
  - destruct (String.prefix "type" kw) eqn:Hty.
    + destruct (nth_error (str_split ":" kw) 1) as [p|]; [|discriminate]. simpl.
      intros H. injection H as <-. split; [|split].
      * intros k H1 H2. by rewrite dict_get_set_ne.
      * by rewrite dict_get_set_ne.
      * apply dict_get_set_eq.
    + intros H. injection H as <-. auto.
Qed.

Lemma properties_loop_spec (props props' : list (string * pyval)) (kws : list string) :
  properties_loop py_int props kws = Ok props' ->
  (forall k, k <> "Size"%string -> k <> "Type"%string ->
     Sync.dict_get k props' = Sync.dict_get k props) /\
  Sync.dict_get "Size" props'
    = match last_with "size" kws with
      | Some kw => size_of py_int kw
      | None => Sync.dict_get "Size" props
      end /\
  Sync.dict_get "Type" props'
    = match last_with "type" kws with
      | Some kw => type_of kw
      | None => Sync.dict_get "Type" props
      end.
Proof.
  revert props. induction kws as [|kw kws IH]; intros props H; simpl in H.
  - injection H as <-. auto.
  - destruct (properties_step py_int props kw) as [pr|x] eqn:Hs; [|discriminate].
    destruct (IH pr H) as (H1 & H2 & H3).
    destruct (properties_step_spec props pr kw Hs) as (K1 & K2 & K3). simpl.
    split; [|split].
    + intros k Hk1 Hk2. rewrite H1, K1 by done. done.
    + rewrite H2. destruct (last_with "size" kws); [done|].
      rewrite K2. by destruct (String.prefix "size" kw).
    + rewrite H3. destruct (last_with "type" kws); [done|].
      rewrite K3. by destruct (String.prefix "type" kw).
Qed.

Lemma properties_loop_Err (props : list (string * pyval)) (kws : list string) (x : exn) :
  properties_loop py_int props kws = Err x -> x = IndexError \/ x = ValueError.
Proof.
  revert props. induction kws as [|kw kws IH]; intros props H; simpl in H; [done|].
  destruct (properties_step py_int props kw) as [pr|y] eqn:Hs; [by apply (IH pr)|].
  injection H as <-. unfold properties_step in Hs.
  repeat case_match; simplify_eq; auto.
Qed.

(** A keyword whose iteration raises makes the whole loop raise. *)
Lemma properties_loop_raises (props : list (string * pyval)) (kws : list string) (kw : string) :
  In kw kws -> (forall pr, exists x, properties_step py_int pr kw = Err x) ->
  exists x, properties_loop py_int props kws = Err x.
Proof.
  intros Hin Hkw. revert props. induction kws as [|kw' kws IH]; intros props; [done|].
  simpl. destruct Hin as [<-|Hin].
  - destruct (Hkw props) as [x ->]. eauto.
  - destruct (properties_step py_int props kw'); [by apply IH|eauto].
Qed.

Lemma create_feature_Err (row : RowData) (x : exn) :
  create_feature literal_eval py_int row = Err x -> x <> SqliteErr.
Proof.
  unfold create_feature.
  destruct (match keywords row with PyStr s => literal_eval s | _ => None end) as [kws|];
    [|intros H; injection H as <-; discriminate].
  destruct (x_flag kws); [discriminate|].
  destruct (original_filename row) as [| | | |o| |];
    try (intros H; injection H as <-; discriminate).
  destruct (str_split "." o) as [|base rest]; [intros H; injection H as <-; discriminate|].
  destruct (properties_loop py_int _ kws) as [pr|y] eqn:Hl; [discriminate|].
  intros H. injection H as <-. apply properties_loop_Err in Hl as [-> | ->]; discriminate.
Qed.

Lemma collect_features_spec (acc : list pyval) (rows : list RowData) :
  (forall row, In row rows -> exists o, create_feature literal_eval py_int row = Ok o) ->
  collect_features literal_eval py_int acc rows
  = Ok (acc ++ flat_map (fun row => match create_feature literal_eval py_int row with
                                    | Ok (Some f) => [f]
                                    | _ => []
                                    end) rows).
Proof.
  revert acc. induction rows as [|row rows IH]; intros acc H; simpl.
  - by rewrite app_nil_r.
  - destruct (H row (or_introl eq_refl)) as [o Ho]. rewrite Ho.
    destruct o as [f|]; rewrite IH by (intros r Hr; apply H; by right).
    + by rewrite <-app_assoc.
    + done.
Qed.

Lemma collect_features_raises (acc : list pyval) (rows : list RowData) (row : RowData)
    (x : exn) :
  In row rows -> create_feature literal_eval py_int row = Err x ->
  exists y, collect_features literal_eval py_int acc rows = Err y /\ y <> SqliteErr.
Proof.
  intros Hin Hx. revert acc. induction rows as [|r rows IH]; intros acc; [done|].
  simpl. destruct Hin as [<-|Hin].
  - rewrite Hx. exists x. split; [done|]. by apply create_feature_Err in Hx.
  - destruct (create_feature literal_eval py_int r) as [[f|]|y] eqn:Hr;
      [by apply IH|by apply IH|].
    exists y. split; [done|]. by apply create_feature_Err in Hr.
Qed.

(** ** Extras *)

(** [create_feature] returns [None] exactly for the rows none of whose
    keywords starts with [type:]; such a row never raises, whatever its
    other keywords or its file name. *)
Theorem create_feature_untagged (row : RowData) (s : string) (kws : list string) :
  keywords row = PyStr s -> literal_eval s = Some kws ->
  create_feature literal_eval py_int row = Ok None <->
  Forall (fun kw => String.prefix "type:" kw = false) kws.
Proof.
  intros Hk Hl. rewrite <-x_flag_spec. unfold create_feature. rewrite Hk, Hl.
  destruct (x_flag kws); [done|]. split; [|discriminate].
  destruct (original_filename row); try discriminate.
  destruct (str_split "." s0); [discriminate|].
  destruct (properties_loop _ _ _); discriminate.
Qed.

(** A feature is a GeoJSON [Point] at [[longitude, latitude]] whose
    properties carry the row's description (even when it is [None]: the
    guard [if not None] is always true, so [""] is never used) and the
    row's date. *)
Theorem create_feature_shape (row : RowData) (f : pyval) :
  create_feature literal_eval py_int row = Ok (Some f) ->
  exists props,
    f = PyDict [("type", PyStr "Feature");
                ("geometry", PyDict [("type", PyStr "Point");
                                     ("coordinates", PyList [longitude row; latitude row])]);
                ("properties", PyDict props)]%string /\
    Sync.dict_get "description" props = Some (description row) /\
    Sync.dict_get "date" props = Some (date row).
Proof.
  unfold create_feature.
  destruct (match keywords row with PyStr s => literal_eval s | _ => None end) as [kws|];
    [|discriminate].
  destruct (x_flag kws); [discriminate|].
  destruct (original_filename row) as [| | | |o| |]; try discriminate.
  destruct (str_split "." o) as [|base rest]; [discriminate|].
  destruct (properties_loop py_int _ kws) as [pr|y] eqn:Hl; [|discriminate].
  intros H. injection H as <-. exists pr. split; [done|].
  destruct (properties_loop_spec _ _ _ Hl) as (H1 & _ & _).
  rewrite !H1 by discriminate. simpl. done.
Qed.

(** The [filename] property is the original file name up to its first
    dot, followed by [.jpeg]: [a.b.HEIC] gives [a.jpeg], and a name
    without a dot just gets [.jpeg] appended. *)
Theorem create_feature_filename (row : RowData) (f : pyval) :
  create_feature literal_eval py_int row = Ok (Some f) ->
  exists o base tail props,
    original_filename row = PyStr o /\
    o = String.append base tail /\
    ~ In "."%char (list_ascii_of_string base) /\
    (tail = EmptyString \/ exists t, tail = String "." t) /\
    f = PyDict [("type", PyStr "Feature");
                ("geometry", PyDict [("type", PyStr "Point");
                                     ("coordinates", PyList [longitude row; latitude row])]);
                ("properties", PyDict props)]%string /\
    Sync.dict_get "filename" props = Some (PyStr (String.append base ".jpeg")).
Proof.
  unfold create_feature.
  destruct (match keywords row with PyStr s => literal_eval s | _ => None end) as [kws|];
    [|discriminate].
  destruct (x_flag kws); [discriminate|].
  destruct (original_filename row) as [| | | |o| |]; try discriminate.
  destruct (str_split "." o) as [|base rest] eqn:Hs; [discriminate|].
  destruct (properties_loop py_int _ kws) as [pr|y] eqn:Hl; [|discriminate].
  intros H. injection H as <-.
  destruct (str_split_first "." o base rest Hs) as (tail & Ho & Hno & Ht).
  exists o, base, tail, pr. do 5 (split; [done|]).
  destruct (properties_loop_spec _ _ _ Hl) as (H1 & _ & _).
  rewrite !H1 by discriminate. simpl. done.
Qed.


(** A tagged row raises as soon as one of its keywords starts with [type]
    or [size] but has no [:] ([IndexError]), or starts with [size] and its
    field is no integer ([ValueError]): [create_feature] has no fallback
    for malformed tags. *)
Theorem create_feature_malformed_raises (row : RowData) (s o kw : string)
    (kws : list string) :
  keywords row = PyStr s -> literal_eval s = Some kws ->
  Exists (fun kw0 => String.prefix "type:" kw0 = true) kws ->
  original_filename row = PyStr o ->
  In kw kws ->
  ((String.prefix "type" kw = true \/ String.prefix "size" kw = true) /\
     ~ In ":"%char (list_ascii_of_string kw) \/
   String.prefix "size" kw = true /\
     (forall fld, nth_error (str_split ":" kw) 1 = Some fld -> py_int fld = None)) ->
  exists x, create_feature literal_eval py_int row = Err x.
Proof.
  intros Hk Hlit Htag Ho Hin Hbad.
  assert (Hx : x_flag kws = false).
  { destruct (x_flag kws) eqn:E; [|done]. apply x_flag_spec in E.
    apply List.Exists_exists in Htag as (kw0 & Hin0 & H0).
    rewrite List.Forall_forall in E. specialize (E kw0 Hin0). congruence. }
  unfold create_feature. rewrite Hk, Hlit, Hx, Ho.
  destruct (str_split "." o) as [|base rest] eqn:Hs; [by apply str_split_nonempty in Hs|].
  destruct (properties_loop_raises
              [("description", if negb (py_truth PyNone) then description row else PyStr "");
               ("filename", PyStr (String.append base ".jpeg")); ("date", date row)]%string
              kws kw Hin) as [x Hx'].
  - intros pr. unfold properties_step.
    destruct Hbad as [[Hp Hno]|[Hsz Hint]].
    + rewrite str_split_no_sep by done. simpl.
      destruct Hp as [-> | ->].
      * destruct (String.prefix "size" kw); eauto.
      * eauto.
    + rewrite Hsz. destruct (nth_error (str_split ":" kw) 1) as [fld|] eqn:Hf; [|eauto].
      rewrite (Hint fld eq_refl). eauto.
  - rewrite Hx'. eauto.
Qed.

(** When the query succeeds and no row raises, [query_database] prints a
    feature collection of the features of the tagged rows, in the order
    of the rows. *)
Theorem query_database_features (album_name : option string)
    (run_query : string -> result (list RowData)) (rows : list RowData) :
  run_query (query_text album_name) = Ok rows ->
  (forall row, In row rows -> exists o, create_feature literal_eval py_int row = Ok o) ->
  query_database literal_eval py_int album_name run_query
  = Printed (PyDict [("type", PyStr "FeatureCollection");
                     ("features", PyList (flat_map (fun row =>
                        match create_feature literal_eval py_int row with
                        | Ok (Some f) => [f]
                        | _ => []
                        end) rows))])%string.
Proof.
  intros Hq Hrows. unfold query_database. rewrite Hq.
  rewrite collect_features_spec by done. done.
Qed.

(** One row that raises in [create_feature] is enough for
    [query_database] to print nothing at all: the exception is not a
    [sqlite3.Error], so the [except] does not catch it and it escapes. *)
Theorem query_database_row_error_escapes (album_name : option string)
    (run_query : string -> result (list RowData)) (rows : list RowData)
    (row : RowData) (x : exn) :
  run_query (query_text album_name) = Ok rows ->
  In row rows -> create_feature literal_eval py_int row = Err x ->
  exists y, query_database literal_eval py_int album_name run_query = Raised y.
Proof.
  intros Hq Hin Hx. unfold query_database. rewrite Hq.
  destruct (collect_features_raises [] rows row x Hin Hx) as (y & -> & Hy).
  exists y. destruct y; [done|done|done|done|done].
Qed.

End Facts.

End FetchFacts.

(** * The claims on the scenarios *)

Module SyncWitnesses.
Import Sync Scenarios SyncFacts.

(** C1 on [a.jpg] with a stale row: the hash differs while the size and
    the mtime agree, and the file is [Modified]. *)
Lemma needs_upload_policy_witness :
  needs_upload demo_digest env_ok store_stale "a.jpg" = Ok (Modified, "aa"%string).
Proof.
  destruct (needs_upload_policy demo_digest env_ok store_stale "a.jpg" photo_a "aa"
              ltac:(vm_compute; reflexivity)) as [_ H].
  destruct (H ltac:(vm_compute; reflexivity) ltac:(vm_compute; reflexivity)) as [_ H2].
  destruct (H2 (mk_row "zz" 2 100 "a.jpg") ltac:(vm_compute; reflexivity)) as [[_ Hm] _].
  apply Hm. left. discriminate.
Defined.

(** C2: a first pass over the sample directory uploads both photos, and
    a second one uploads nothing. *)
Lemma second_pass_uploads_nothing_witness :
  uploaded_count (pass_state (run_pass demo_digest env_ok
    (db (pass_state (run_pass demo_digest env_ok store_gone))))) = 0%nat.
Proof.
  refine (proj1 (second_pass_uploads_nothing demo_digest env_ok env_ok store_gone
    [EvDelete "/photos/c.jpg"] (pass_state (run_pass demo_digest env_ok store_gone))
    _ _ eq_refl (fun _ => eq_refl) (Permutation_refl _) [] _ _));
    vm_compute; reflexivity.
Defined.

(** C3: the row of the deleted [c.jpg] goes, and when [c.jpg] comes back
    it is [New]. *)
Lemma reconcile_before_upload_witness :
  needs_upload demo_digest env_back
    (db (pass_state (run_pass demo_digest env_ok store_gone))) "c.jpg"
  = Ok (New, "cc"%string).
Proof.
  destruct (reconcile_before_upload demo_digest env_ok store_gone [EvDelete "/photos/c.jpg"]
              (pass_state (run_pass demo_digest env_ok store_gone))
              ltac:(vm_compute; reflexivity)) as (_ & _ & _ & _ & H).
  apply (H env_back "c.jpg" photo_c); vm_compute; reflexivity.
Defined.

(** C4: with S3 down, [a.jpg] fails and [b.JPEG] is still processed. *)
Lemma upload_failure_isolated_witness :
  exists o, In (EvResult "b.JPEG" o) (trace (sync_images demo_digest env_s3_down ∅)).
Proof.
  assert (Hfail : (exists n, fs env_s3_down (join (photos_dir env_s3_down) "a.jpg") = Some n
                               /\ n_data n = None) \/
    (exists c h, needs_upload demo_digest env_s3_down
                   (db (sync_from demo_digest env_s3_down (mk_ss 0 0 0 ∅ []) [])) "a.jpg"
                 = Ok (c, h) /\ c <> Unchanged /\
                 s3_upload_ok env_s3_down (join (photos_dir env_s3_down) "a.jpg") = false)).
  { right. exists New, "aa"%string. split; [vm_compute; reflexivity|].
    split; [discriminate|reflexivity]. }
  destruct (upload_failure_isolated demo_digest env_s3_down ∅ [] ["b.JPEG"%string] "a.jpg"
              ltac:(vm_compute; reflexivity) Hfail) as (_ & _ & _ & _ & _ & _ & H).
  apply H. left. reflexivity.
Defined.

(** C5, as the code does it: a failing insert is one more failure. *)
Lemma store_errors_split_witness :
  failed_count (sync_step demo_digest env_insert_fails (mk_ss 0 0 0 ∅ []) "a.jpg") = 1%nat.
Proof.
  destruct (store_errors_split demo_digest env_insert_fails ∅) as (_ & _ & _ & _ & H & _).
  rewrite (H (mk_ss 0 0 0 ∅ []) "a.jpg" New "aa");
    first [reflexivity | vm_compute; reflexivity | discriminate].
Defined.

(** C5 as stated fails: the insert after a successful transfer fails for
    every photo, yet the pass is not aborted; it ends normally with two
    failures and an empty table. *)
Lemma store_error_not_fatal :
  db_ok env_insert_fails (DbInsert "/photos/a.jpg") = false /\
  run_pass demo_digest env_insert_fails ∅
  = Ok ([], mk_ss 0 0 2 ∅ [EvUpload "/photos/a.jpg"; EvResult "a.jpg" Failed;
                           EvUpload "/photos/b.JPEG"; EvResult "b.JPEG" Failed]).
Proof. split; vm_compute; reflexivity. Qed.

(** C6, as the code does it: with S3 down every photo fails and the
    status is 1. *)
Lemma exit_status_spec_witness :
  main demo_digest SetupOk false env_s3_down ∅ = ExitCode 1.
Proof.
  destruct (exit_status_spec demo_digest env_s3_down ∅) as (_ & H & _).
  apply (H [] (pass_state (run_pass demo_digest env_s3_down ∅)));
    vm_compute; [reflexivity|lia].
Defined.

(** C6 as stated fails: a [KeyboardInterrupt] while [ImageSyncer("photos")]
    connects is outside [main]'s [try] and does not end in [exit(1)]. *)
Lemma interrupt_during_setup_not_exit_1 :
  main demo_digest SetupInterrupted false env_ok ∅ <> ExitCode 1.
Proof. discriminate. Qed.

(** C7: [b.JPEG] is a candidate (its suffix lower-cases to [.jpeg]). *)
Lemma get_image_files_spec_witness : In "b.JPEG"%string (get_image_files env_ok).
Proof.
  destruct (get_image_files_spec env_ok) as [H _].
  apply H. split; [simpl; tauto|]. split; [reflexivity|]. right. reflexivity.
Defined.

(** C8: the reconciliation of [store_gone] deletes the row of [c.jpg]. *)
Lemma record_frame_witness :
  (∅ : store) !! "/photos/c.jpg"%string = store_gone !! "/photos/c.jpg"%string \/
  ((∅ : store) !! "/photos/c.jpg"%string = None /\ fs env_ok "/photos/c.jpg" = None /\
   In (EvDelete "/photos/c.jpg") [EvDelete "/photos/c.jpg"]).
Proof.
  destruct (record_frame demo_digest env_ok store_gone) as [_ H].
  apply H. vm_compute. reflexivity.
Defined.

(** C9: [a.jpg] and [copy.jpg] have the same bytes and the same digest. *)
Lemma get_file_hash_content_only_witness :
  get_file_hash demo_digest env_ok "/photos/a.jpg"
  = get_file_hash demo_digest env_ok "/photos/copy.jpg".
Proof.
  apply (proj1 (get_file_hash_content_only demo_digest env_ok env_ok "/photos/a.jpg"
    "/photos/copy.jpg" photo_a photo_a_copy [Byte.x61; Byte.x61] eq_refl eq_refl eq_refl eq_refl)).
Defined.

(** C10: with an unreadable photo, two uploads and one failure make the
    three candidates. *)
Lemma counters_partition_witness :
  let s := pass_state (run_pass demo_digest env_locked ∅) in
  (uploaded_count s + skipped_count s + failed_count s = 3)%nat.
Proof.
  destruct (counters_partition demo_digest env_locked ∅) as [_ H].
  cbv zeta. rewrite (H [] (pass_state (run_pass demo_digest env_locked ∅)));
    vm_compute; reflexivity.
Defined.

End SyncWitnesses.

Module ExtraWitnesses.
Import Sync Scenarios SyncExtras.

(** [b.JPEG] is sent as [image/jpeg]. *)
Lemma candidate_content_type_witness :
  up_content_type (upload_args env_ok "b.JPEG") = "image/jpeg"%string.
Proof.
  apply (candidate_content_type env_ok "b.JPEG").
  vm_compute. right. left. reflexivity.
Defined.

(** The sample listing has no repeated name. *)
Lemma candidate_keys_distinct_witness :
  NoDup (map (fun name => up_key (upload_args env_ok name)) (get_image_files env_ok)) /\
  NoDup (map (join (photos_dir env_ok)) (get_image_files env_ok)).
Proof.
  apply (candidate_keys_distinct env_ok).
  apply (bool_decide_unpack _). vm_compute. reflexivity.
Defined.

(** Reconciling a table with rows for [a.jpg] and the deleted [c.jpg]
    keeps [a.jpg]; a second reconciliation changes nothing. *)
Lemma cleanup_idempotent_witness :
  cleanup_deleted_files env_ok (<["/photos/a.jpg"%string := mk_row "aa" 2 100 "a.jpg"]> ∅)
  = Ok (<["/photos/a.jpg"%string := mk_row "aa" 2 100 "a.jpg"]> ∅, []).
Proof.
  apply (cleanup_idempotent env_ok
           (<["/photos/a.jpg"%string := mk_row "aa" 2 100 "a.jpg"]> store_gone)
           _ [EvDelete "/photos/c.jpg"]).
  vm_compute. reflexivity.
Defined.

(** A sync over [store_gone] leaves the row of [c.jpg], no candidate,
    alone. *)
Lemma sync_images_frame_witness :
  db (sync_images demo_digest env_ok store_gone) !! "/photos/c.jpg"%string
  = store_gone !! "/photos/c.jpg"%string.
Proof.
  apply (sync_images_frame demo_digest env_ok store_gone "/photos/c.jpg").
  intros name Hin. vm_compute in Hin.
  destruct Hin as [<-|[<-|[]]]; vm_compute; discriminate.
Defined.

(** [a.jpg] is logged as uploaded and its row matches its file. *)
Lemma logged_success_matches_witness :
  exists r n d, db (sync_images demo_digest env_ok ∅) !! "/photos/a.jpg"%string = Some r /\
    fs env_ok "/photos/a.jpg" = Some n /\ n_data n = Some d /\
    file_hash r = demo_digest d /\ file_size r = n_size n /\ last_modified r = n_mtime n.
Proof.
  apply (logged_success_matches demo_digest env_ok ∅ "a.jpg" Uploaded).
  - vm_compute. right. left. reflexivity.
  - discriminate.
Defined.

End ExtraWitnesses.

Module FetchWitnesses.
Import Fetch FetchScenarios FetchFacts.

(** A row whose keywords are [holiday] and [size:x] gives [None], the
    malformed size notwithstanding. *)
Lemma create_feature_untagged_witness :
  create_feature demo_literal_eval demo_int row_untagged = Ok None.
Proof.
  apply (proj2 (create_feature_untagged demo_literal_eval demo_int row_untagged kw_untagged
                  ["holiday"; "size:x"]%string eq_refl ltac:(vm_compute; reflexivity))).
  repeat constructor.
Defined.

(** The tagged row [row_rack] is a point at [[-63.571, 44.645]] whose
    description is [None]. *)
Lemma create_feature_shape_witness :
  exists props,
    feature_rack
    = PyDict [("type", PyStr "Feature");
              ("geometry", PyDict [("type", PyStr "Point");
                                   ("coordinates", PyList [longitude row_rack; latitude row_rack])]);
              ("properties", PyDict props)]%string /\
    Sync.dict_get "description" props = Some (description row_rack) /\
    Sync.dict_get "date" props = Some (date row_rack).
Proof.
  apply (create_feature_shape demo_literal_eval demo_int row_rack feature_rack).
  vm_compute. reflexivity.
Defined.

(** [IMG_0001.edit.HEIC] is exported as [IMG_0001.jpeg]. *)
Lemma create_feature_filename_witness :
  exists o base tail props,
    original_filename row_rack = PyStr o /\
    o = String.append base tail /\
    ~ In "."%char (list_ascii_of_string base) /\
    (tail = EmptyString \/ exists t, tail = String "." t) /\
    feature_rack
    = PyDict [("type", PyStr "Feature");
              ("geometry", PyDict [("type", PyStr "Point");
                                   ("coordinates", PyList [longitude row_rack; latitude row_rack])]);
              ("properties", PyDict props)]%string /\
    Sync.dict_get "filename" props = Some (PyStr (String.append base ".jpeg")).
Proof.
  apply (create_feature_filename demo_literal_eval demo_int row_rack feature_rack).
  vm_compute. reflexivity.
Defined.


(** [size:many] on a tagged row raises. *)
Lemma create_feature_malformed_raises_witness :
  exists x, create_feature demo_literal_eval demo_int row_bad = Err x.
Proof.
  apply (create_feature_malformed_raises demo_literal_eval demo_int row_bad kw_bad
           "IMG_0003.HEIC" "size:many" ["type:rack"; "size:many"]%string).
  - reflexivity.
  - vm_compute. reflexivity.
  - left. vm_compute. reflexivity.
  - reflexivity.
  - right. left. reflexivity.
  - right. split; [vm_compute; reflexivity|].
    intros fld Hf. vm_compute in Hf. injection Hf as <-. vm_compute. reflexivity.
Defined.

(** Of the two rows of the album only the tagged one becomes a feature. *)
Lemma query_database_features_witness :
  query_database demo_literal_eval demo_int (Some "bike parking"%string) run_query_ok
  = Printed (PyDict [("type", PyStr "FeatureCollection");
                     ("features", PyList (flat_map (fun row =>
                        match create_feature demo_literal_eval demo_int row with
                        | Ok (Some f) => [f]
                        | _ => []
                        end) [row_rack; row_untagged]))])%string.
Proof.
  apply (query_database_features demo_literal_eval demo_int (Some "bike parking"%string)
           run_query_ok [row_rack; row_untagged] eq_refl).
  intros row Hin. destruct Hin as [<-|[<-|[]]];
    [exists (Some feature_rack)|exists None]; vm_compute; reflexivity.
Defined.

(** With [row_bad] among the rows nothing is printed. *)
Lemma query_database_row_error_escapes_witness :
  exists y, query_database demo_literal_eval demo_int (Some "bike parking"%string) run_query_bad
            = Raised y.
Proof.
  apply (query_database_row_error_escapes demo_literal_eval demo_int
           (Some "bike parking"%string) run_query_bad [row_rack; row_bad; row_untagged]
           row_bad ValueError eq_refl).
  - right. left. reflexivity.
  - vm_compute. reflexivity.
Defined.

End FetchWitnesses.
